(** * Smart-Sheet: the adaptive interview orchestrator

    A shallow embedding of the orchestration core of the repository:
    the candidate profile and its update ([orchestrator.py],
    [_update_candidate_profile]), the continue/stop policy
    ([_should_continue_adaptive_assessment]), the question queue driven by
    [start_interview] and [process_response], the completion step
    ([_complete_adaptive_assessment]) and the layered response parser
    ([utils/json_parser.py], [parse_json_response]).

    Conventions of the embedding.
    - A Python [dict] read from generated JSON is a record whose fields are
      [option]s: [None] is an absent key, [d.get(k, x)] is [default x].
    - Numeric scores are integers ([Z]); the mean of the recent scores is the
      exact rational ([Q]) that Python's true division denotes.
    - Every reading of the wall clock inside one call is the single value
      [now] of that call; no decision of the code depends on it.
    - The agents are the external collaborators.  What they answer during a
      call is given by a record of answers ([collaborators]); each call made
      to one of them is written to a call log, in order. *)

From Stdlib Require Import ZArith QArith Lia String List Ascii.
From stdpp Require Import base list strings gmap.
Close Scope Q_scope.

(* ===================================================================== *)
(** ** Python helpers *)
(* ===================================================================== *)

(** [l[-n:]]: the last [n] elements (the whole list when it is shorter). *)
Definition last_n {A : Type} (n : nat) (l : list A) : list A :=
  drop (length l - n) l.

(** [if x not in l: l.append(x)] *)
Definition append_if_absent (x : string) (l : list string) : list string :=
  if bool_decide (x ∈ l) then l else l ++ [x].

(** [sum(l)] *)
Definition sum_Z (l : list Z) : Z := foldr Z.add 0%Z l.

(** [max(l)] and [min(l)]; both raise [ValueError] on an empty list. *)
Definition max_Z (l : list Z) : option Z :=
  match l with
  | [] => None
  | x :: r => Some (foldr Z.max x r)
  end.

Definition min_Z (l : list Z) : option Z :=
  match l with
  | [] => None
  | x :: r => Some (foldr Z.min x r)
  end.

Inductive py_exception : Type :=
| KeyError (key : string)
| IndexError
| TypeError
| ValueError.

Inductive py_result (A : Type) : Type :=
| Ok (a : A)
| Raise (e : py_exception).
Arguments Ok {A} a.
Arguments Raise {A} e.

(* ===================================================================== *)
(** ** Data model *)
(* ===================================================================== *)

Definition timestamp : Type := string.

(** A generated question: the keys of the dict that the orchestrator reads. *)
Record question : Type := {
  question_id : option string;
  question_text : option string;
  skill_target : option string;
  difficulty : option string;
  adaptive_reasoning : option string;
  requires_dataset : bool;
  (** [question.get("dataset_info", {}).get("generated_successfully")] *)
  dataset_generated : bool
}.

(** The reviewer's evaluation: the keys the orchestrator reads. *)
Record evaluation : Type := {
  score : option Z;
  grade : option string;
  justification : option string;
  follow_up_needed : bool;
  follow_up_suggestion : option string
}.

Record trajectory_item : Type := {
  ti_skill : string;
  ti_score : Z;
  ti_difficulty : string;
  ti_timestamp : timestamp
}.

Record performance_item : Type := {
  pi_score : Z;
  pi_grade : string;
  pi_question_difficulty : string;
  pi_timestamp : timestamp
}.

(** [self.candidate_profile] *)
Record profile : Type := {
  strengths : list string;
  weaknesses : list string;
  skill_trajectory : list trajectory_item;
  preferred_difficulty : string;
  areas_needing_focus : list string;
  role_context : option string;
  initial_difficulty : option string;
  focus_areas : option (list string)
}.

Record assessment_record : Type := {
  question_index : nat;
  ar_question : question;
  candidate_answer : string;
  ar_evaluation : evaluation;
  ar_timestamp : timestamp;
  excel_skill : option string
}.

Record candidate_info : Type := {
  name : string;
  role_type : string;
  difficulty_level : string;
  excel_focus_areas : list string;
  max_questions : Z;
  include_datasets : bool
}.

Record final_decision : Type := {
  decision : option string;
  overall_score : option Z;
  recommendation_summary : option string
}.

Record start_info : Type := {
  md_candidate : string;
  md_role_context : string;
  md_start_time : timestamp;
  md_max_questions : Z;
  md_data_generation_enabled : bool
}.

Record completion_info : Type := {
  md_end_time : timestamp;
  (** [str(self.end_time - self.start_time)], kept as its two operands *)
  md_duration : timestamp * timestamp;
  md_questions_completed : nat;
  md_final_decision : final_decision;
  md_adaptive_trajectory_decisions : nat;
  md_candidate_profile_final : profile
}.

(** [self.interview_metadata]: the keys written by [start_interview] and the
    keys added by the completion step; the dict is empty at construction. *)
Record metadata : Type := {
  md_start : option start_info;
  md_completion : option completion_info
}.

Inductive chat_entry : Type :=
| Chat_interview_start (ts : timestamp) (content : string)
| Chat_question (ts : timestamp) (qid : string) (content : string)
    (question_data : question) (dataset_available : bool)
| Chat_response (ts : timestamp) (qid : string) (content : string)
    (skill : option string) (had_dataset : bool).

Record trajectory_decision : Type := {
  td_timestamp : timestamp;
  td_reasoning : string;
  td_trajectory : string;
  td_questions_generated : nat
}.

Inductive lifecycle : Type := not_started | in_progress | completed.

Global Instance lifecycle_eq_dec : EqDecision lifecycle.
Proof. solve_decision. Defined.

(** The mutable fields of [InterviewOrchestrator]. *)
Record orchestrator : Type := {
  interview_state : lifecycle;
  current_questions : list question;
  current_question_index : nat;
  chat_history : list chat_entry;
  assessment_results : list assessment_record;
  candidate_data : option candidate_info;
  interview_metadata : metadata;
  excel_skills_tested : gset string;
  excel_performance_by_skill : gmap string (list performance_item);
  candidate_profile : profile;
  trajectory_decisions : list trajectory_decision;
  start_time : option timestamp;
  end_time : option timestamp
}.

(** [InterviewOrchestrator.__init__] *)
Definition initial_profile : profile :=
  {| strengths := []; weaknesses := []; skill_trajectory := [];
     preferred_difficulty := "Medium"; areas_needing_focus := [];
     role_context := None; initial_difficulty := None; focus_areas := None |}.

Definition init : orchestrator :=
  {| interview_state := not_started;
     current_questions := [];
     current_question_index := 0;
     chat_history := [];
     assessment_results := [];
     candidate_data := None;
     interview_metadata := {| md_start := None; md_completion := None |};
     excel_skills_tested := ∅;
     excel_performance_by_skill := ∅;
     candidate_profile := initial_profile;
     trajectory_decisions := [];
     start_time := None;
     end_time := None |}.

(** Field assignments [self.f = v]. *)
Definition set_interview_state (v : lifecycle) (o : orchestrator) : orchestrator :=
  {| interview_state := v;
     current_questions := current_questions o;
     current_question_index := current_question_index o;
     chat_history := chat_history o;
     assessment_results := assessment_results o;
     candidate_data := candidate_data o;
     interview_metadata := interview_metadata o;
     excel_skills_tested := excel_skills_tested o;
     excel_performance_by_skill := excel_performance_by_skill o;
     candidate_profile := candidate_profile o;
     trajectory_decisions := trajectory_decisions o;
     start_time := start_time o;
     end_time := end_time o |}.

Definition set_current_questions (v : list question) (o : orchestrator) : orchestrator :=
  {| interview_state := interview_state o;
     current_questions := v;
     current_question_index := current_question_index o;
     chat_history := chat_history o;
     assessment_results := assessment_results o;
     candidate_data := candidate_data o;
     interview_metadata := interview_metadata o;
     excel_skills_tested := excel_skills_tested o;
     excel_performance_by_skill := excel_performance_by_skill o;
     candidate_profile := candidate_profile o;
     trajectory_decisions := trajectory_decisions o;
     start_time := start_time o;
     end_time := end_time o |}.

Definition set_current_question_index (v : nat) (o : orchestrator) : orchestrator :=
  {| interview_state := interview_state o;
     current_questions := current_questions o;
     current_question_index := v;
     chat_history := chat_history o;
     assessment_results := assessment_results o;
     candidate_data := candidate_data o;
     interview_metadata := interview_metadata o;
     excel_skills_tested := excel_skills_tested o;
     excel_performance_by_skill := excel_performance_by_skill o;
     candidate_profile := candidate_profile o;
     trajectory_decisions := trajectory_decisions o;
     start_time := start_time o;
     end_time := end_time o |}.

Definition set_chat_history (v : list chat_entry) (o : orchestrator) : orchestrator :=
  {| interview_state := interview_state o;
     current_questions := current_questions o;
     current_question_index := current_question_index o;
     chat_history := v;
     assessment_results := assessment_results o;
     candidate_data := candidate_data o;
     interview_metadata := interview_metadata o;
     excel_skills_tested := excel_skills_tested o;
     excel_performance_by_skill := excel_performance_by_skill o;
     candidate_profile := candidate_profile o;
     trajectory_decisions := trajectory_decisions o;
     start_time := start_time o;
     end_time := end_time o |}.

Definition set_assessment_results (v : list assessment_record) (o : orchestrator) : orchestrator :=
  {| interview_state := interview_state o;
     current_questions := current_questions o;
     current_question_index := current_question_index o;
     chat_history := chat_history o;
     assessment_results := v;
     candidate_data := candidate_data o;
     interview_metadata := interview_metadata o;
     excel_skills_tested := excel_skills_tested o;
     excel_performance_by_skill := excel_performance_by_skill o;
     candidate_profile := candidate_profile o;
     trajectory_decisions := trajectory_decisions o;
     start_time := start_time o;
     end_time := end_time o |}.

Definition set_candidate_data (v : option candidate_info) (o : orchestrator) : orchestrator :=
  {| interview_state := interview_state o;
     current_questions := current_questions o;
     current_question_index := current_question_index o;
     chat_history := chat_history o;
     assessment_results := assessment_results o;
     candidate_data := v;
     interview_metadata := interview_metadata o;
     excel_skills_tested := excel_skills_tested o;
     excel_performance_by_skill := excel_performance_by_skill o;
     candidate_profile := candidate_profile o;
     trajectory_decisions := trajectory_decisions o;
     start_time := start_time o;
     end_time := end_time o |}.

Definition set_interview_metadata (v : metadata) (o : orchestrator) : orchestrator :=
  {| interview_state := interview_state o;
     current_questions := current_questions o;
     current_question_index := current_question_index o;
     chat_history := chat_history o;
     assessment_results := assessment_results o;
     candidate_data := candidate_data o;
     interview_metadata := v;
     excel_skills_tested := excel_skills_tested o;
     excel_performance_by_skill := excel_performance_by_skill o;
     candidate_profile := candidate_profile o;
     trajectory_decisions := trajectory_decisions o;
     start_time := start_time o;
     end_time := end_time o |}.

Definition set_excel_skills_tested (v : gset string) (o : orchestrator) : orchestrator :=
  {| interview_state := interview_state o;
     current_questions := current_questions o;
     current_question_index := current_question_index o;
     chat_history := chat_history o;
     assessment_results := assessment_results o;
     candidate_data := candidate_data o;
     interview_metadata := interview_metadata o;
     excel_skills_tested := v;
     excel_performance_by_skill := excel_performance_by_skill o;
     candidate_profile := candidate_profile o;
     trajectory_decisions := trajectory_decisions o;
     start_time := start_time o;
     end_time := end_time o |}.

Definition set_excel_performance_by_skill (v : gmap string (list performance_item))
    (o : orchestrator) : orchestrator :=
  {| interview_state := interview_state o;
     current_questions := current_questions o;
     current_question_index := current_question_index o;
     chat_history := chat_history o;
     assessment_results := assessment_results o;
     candidate_data := candidate_data o;
     interview_metadata := interview_metadata o;
     excel_skills_tested := excel_skills_tested o;
     excel_performance_by_skill := v;
     candidate_profile := candidate_profile o;
     trajectory_decisions := trajectory_decisions o;
     start_time := start_time o;
     end_time := end_time o |}.

Definition set_candidate_profile (v : profile) (o : orchestrator) : orchestrator :=
  {| interview_state := interview_state o;
     current_questions := current_questions o;
     current_question_index := current_question_index o;
     chat_history := chat_history o;
     assessment_results := assessment_results o;
     candidate_data := candidate_data o;
     interview_metadata := interview_metadata o;
     excel_skills_tested := excel_skills_tested o;
     excel_performance_by_skill := excel_performance_by_skill o;
     candidate_profile := v;
     trajectory_decisions := trajectory_decisions o;
     start_time := start_time o;
     end_time := end_time o |}.

Definition set_trajectory_decisions (v : list trajectory_decision) (o : orchestrator) : orchestrator :=
  {| interview_state := interview_state o;
     current_questions := current_questions o;
     current_question_index := current_question_index o;
     chat_history := chat_history o;
     assessment_results := assessment_results o;
     candidate_data := candidate_data o;
     interview_metadata := interview_metadata o;
     excel_skills_tested := excel_skills_tested o;
     excel_performance_by_skill := excel_performance_by_skill o;
     candidate_profile := candidate_profile o;
     trajectory_decisions := v;
     start_time := start_time o;
     end_time := end_time o |}.

Definition set_start_time (v : option timestamp) (o : orchestrator) : orchestrator :=
  {| interview_state := interview_state o;
     current_questions := current_questions o;
     current_question_index := current_question_index o;
     chat_history := chat_history o;
     assessment_results := assessment_results o;
     candidate_data := candidate_data o;
     interview_metadata := interview_metadata o;
     excel_skills_tested := excel_skills_tested o;
     excel_performance_by_skill := excel_performance_by_skill o;
     candidate_profile := candidate_profile o;
     trajectory_decisions := trajectory_decisions o;
     start_time := v;
     end_time := end_time o |}.

Definition set_end_time (v : option timestamp) (o : orchestrator) : orchestrator :=
  {| interview_state := interview_state o;
     current_questions := current_questions o;
     current_question_index := current_question_index o;
     chat_history := chat_history o;
     assessment_results := assessment_results o;
     candidate_data := candidate_data o;
     interview_metadata := interview_metadata o;
     excel_skills_tested := excel_skills_tested o;
     excel_performance_by_skill := excel_performance_by_skill o;
     candidate_profile := candidate_profile o;
     trajectory_decisions := trajectory_decisions o;
     start_time := start_time o;
     end_time := v |}.

(* ===================================================================== *)
(** ** CandidateProfile: [_update_candidate_profile] *)
(* ===================================================================== *)

(** The mean of a non-empty list of scores, [sum(l) / len(l)]. *)
Definition mean (l : list Z) : Q :=
  Qdiv (inject_Z (sum_Z l)) (inject_Z (Z.of_nat (length l))).

(** The tail of [_update_candidate_profile]: "Adjust preferred difficulty".
    [recent_scores] is empty only for an empty trajectory, and then the
    field keeps its value. *)
Definition adjust_preferred_difficulty (trajectory : list trajectory_item)
    (current : string) : string :=
  let recent_scores := map ti_score (last_n 3 trajectory) in
  match recent_scores with
  | [] => current
  | _ :: _ =>
      let avg_recent := mean recent_scores in
      if Qle_bool (inject_Z 85) avg_recent then "Hard"
      else if Qle_bool (inject_Z 70) avg_recent then "Medium"
      else "Easy"
  end.

(** The part of [_update_candidate_profile] that writes
    [self.candidate_profile], for the skill, score and difficulty it read
    from the question and the evaluation. *)
Definition profile_update (now : timestamp) (skill : string) (sc : Z)
    (diff : string) (p : profile) : profile :=
  let trajectory :=
    skill_trajectory p ++
      [{| ti_skill := skill; ti_score := sc; ti_difficulty := diff;
          ti_timestamp := now |}] in
  let strengths' :=
    if (80 <=? sc)%Z then append_if_absent skill (strengths p) else strengths p in
  let weaknesses' :=
    if (80 <=? sc)%Z then weaknesses p
    else if (sc <? 60)%Z then append_if_absent skill (weaknesses p)
    else weaknesses p in
  let areas' :=
    if (80 <=? sc)%Z then areas_needing_focus p
    else if (sc <? 60)%Z then append_if_absent skill (areas_needing_focus p)
    else areas_needing_focus p in
  {| strengths := strengths';
     weaknesses := weaknesses';
     skill_trajectory := trajectory;
     preferred_difficulty :=
       adjust_preferred_difficulty trajectory (preferred_difficulty p);
     areas_needing_focus := areas';
     role_context := role_context p;
     initial_difficulty := initial_difficulty p;
     focus_areas := focus_areas p |}.

(** [_update_candidate_profile(question, evaluation, answer)] *)
Definition _update_candidate_profile (now : timestamp) (q : question)
    (ev : evaluation) (o : orchestrator) : orchestrator :=
  let skill := default "Unknown" (skill_target q) in
  let sc := default 0%Z (score ev) in
  let gr := default EmptyString (grade ev) in
  let diff := default EmptyString (difficulty q) in
  let by_skill := excel_performance_by_skill o in
  let earlier := default [] (by_skill !! skill) in
  let item :=
    {| pi_score := sc; pi_grade := gr; pi_question_difficulty := diff;
       pi_timestamp := now |} in
  set_candidate_profile (profile_update now skill sc diff (candidate_profile o))
    (set_excel_performance_by_skill (<[skill := earlier ++ [item]]> by_skill) o).

(* ===================================================================== *)
(** ** TrajectoryPolicy *)
(* ===================================================================== *)

Record continue_decision : Type := {
  continue : bool;
  reason : string
}.

(** [r["evaluation"]["score"] for r in ...]: a missing key raises. *)
Fixpoint scores_of (l : list assessment_record) : py_result (list Z) :=
  match l with
  | [] => Ok []
  | r :: rest =>
      match score (ar_evaluation r) with
      | None => Raise (KeyError "score")
      | Some s =>
          match scores_of rest with
          | Ok ss => Ok (s :: ss)
          | Raise e => Raise e
          end
      end
  end.

(** [_should_continue_adaptive_assessment] *)
Definition _should_continue_adaptive_assessment (o : orchestrator)
    : py_result continue_decision :=
  let n := length (assessment_results o) in
  if n <? 4 then
    Ok {| continue := true; reason := "Need minimum assessment coverage" |}
  else if (from_option max_questions 10 (candidate_data o) <=? Z.of_nat n)%Z then
    Ok {| continue := false; reason := "Reached maximum question limit" |}
  else
    let coverage :=
      let target_skills := 5 in
      if target_skills <=? size (excel_skills_tested o) then
        Ok {| continue := false; reason := "Adequate skill coverage achieved" |}
      else
        Ok {| continue := true; reason := "Continue adaptive assessment" |} in
    if 6 <=? n then
      match scores_of (last_n 4 (assessment_results o)) with
      | Raise e => Raise e
      | Ok recent_scores =>
          match max_Z recent_scores, min_Z recent_scores with
          | Some hi, Some lo =>
              let score_variance := (hi - lo)%Z in
              if (score_variance <? 15)%Z then
                Ok {| continue := false; reason := "Performance level established" |}
              else coverage
          | _, _ => Raise ValueError
          end
      end
    else coverage.

(** [_analyze_performance_trend] *)
Inductive trend : Type := insufficient_data | improving | declining | stable.

Definition _analyze_performance_trend (o : orchestrator) : trend :=
  let trajectory := skill_trajectory (candidate_profile o) in
  if length trajectory <? 2 then insufficient_data
  else
    let recent_scores := map ti_score (last_n 3 trajectory) in
    match head recent_scores, last recent_scores with
    | Some first, Some latest =>
        if (first + 10 <? latest)%Z then improving
        else if (latest <? first - 10)%Z then declining
        else stable
    | _, _ => stable
    end.

(** [_identify_skill_gaps] *)
Definition all_excel_skills : list string :=
  [ "Basic Formulas and Functions";
    "Data Manipulation and Cleaning";
    "Lookup Functions (VLOOKUP, INDEX/MATCH)";
    "Pivot Tables and Data Analysis";
    "Data Visualization and Charts";
    "Conditional Logic and IF Statements";
    "Advanced Functions and Array Formulas" ].

Definition _identify_skill_gaps (o : orchestrator) : list string :=
  let weak_skills := areas_needing_focus (candidate_profile o) in
  let untested_skills :=
    filter (fun skill => skill ∉ excel_skills_tested o) all_excel_skills in
  weak_skills ++ take 2 untested_skills.

(* ===================================================================== *)
(** ** The external collaborators and the results of the methods *)
(* ===================================================================== *)

(** What an interviewer method hands back: the success dict with its text,
    or the failure dict of [generate_response] (which catches every
    exception of the generation backend). *)
Inductive reply : Type :=
| Said (text : string)
| Unavailable (error : string).

(** [result.get(key)] on such a dict, for the key holding the text. *)
Definition said (r : reply) : option string :=
  match r with
  | Said text => Some text
  | Unavailable _ => None
  end.

(** What [reviewer_agent.evaluate_response] and
    [recruiter_agent.make_final_decision] do: hand back a success dict, hand
    back a failure dict, or raise (both assign a key into the parsed
    document outside any [try], which raises [TypeError] when the document
    is not an object). *)
Inductive agent_result (A : Type) : Type :=
| Succeeded (a : A)
| Failed (error : string)
| Crashed (e : py_exception).
Arguments Succeeded {A} a.
Arguments Failed {A} error.
Arguments Crashed {A} e.

(** The generation backend behind [_generate_next_questions]: a success dict
    carrying the enhanced questions (possibly none), or a failure dict. *)
Inductive generation_result : Type :=
| Generated (questions : list question) (generation_reasoning trajectory : string)
| Not_generated (error : string).

(** The answers of the collaborators during one call of a method. *)
Record collaborators : Type := {
  now : timestamp;
  generate : generation_result;
  welcome : reply;
  present : reply;
  evaluate : agent_result evaluation;
  clarify : reply;
  acknowledge : reply;
  make_final_decision : agent_result final_decision;
  conclude : reply
}.

(** The calls made to the collaborators. *)
Inductive call : Type :=
| Call_generate (context : string)
| Call_welcome
| Call_present (q : question) (question_number : nat)
| Call_evaluate (q : question) (answer : string)
| Call_clarify (specific_area : string)
| Call_acknowledge
| Call_final_decision
| Call_conclude (outcome_label : string).

Inductive error : Type :=
| Err_not_in_progress
| Err_no_current_question
| Err_evaluate (e : string)
| Err_generate_initial (e : string)
| Err_start_interview (e : string)
| Err_present_first (e : string)
| Err_present_next (e : string)
| Err_exception (e : py_exception).

(** The dicts returned by [start_interview] and [process_response]. *)
Inductive response : Type :=
| Resp_error (e : error) (interview_complete : bool)
| Resp_started (first_question : question) (question_presentation : string)
    (questions_prepared : nat)
| Resp_follow_up (acknowledgment : option string) (clarification_question : string)
| Resp_next (acknowledgment : string) (next_question : question)
    (question_presentation : string) (ev : evaluation)
| Resp_completed (acknowledgment : string) (conclusion_message : string)
    (fd : final_decision).

(** [result["success"]] *)
Definition success (r : response) : bool :=
  match r with
  | Resp_error _ _ => false
  | _ => true
  end.

(* ===================================================================== *)
(** ** Statements: state, call log, early return and exceptions *)
(* ===================================================================== *)

Inductive outcome (A : Type) : Type :=
| Normal (a : A)
| Returned (r : response)
| Raised (e : py_exception).
Arguments Normal {A} a.
Arguments Returned {A} r.
Arguments Raised {A} e.

Definition M (A : Type) : Type :=
  orchestrator → list call → outcome A * orchestrator * list call.

Definition ret {A : Type} (a : A) : M A := fun o log => (Normal a, o, log).

Definition bind {A B : Type} (m : M A) (k : A → M B) : M B :=
  fun o log =>
    match m o log with
    | (Normal a, o', log') => k a o' log'
    | (Returned r, o', log') => (Returned r, o', log')
    | (Raised e, o', log') => (Raised e, o', log')
    end.

Notation "'let!' x ':=' m 'in' k" := (bind m (fun x => k))
  (at level 10, x name, m at level 100, k at level 200).
Notation "'run!' m 'in' k" := (bind m (fun _ => k))
  (at level 10, m at level 100, k at level 200).

Definition get : M orchestrator := fun o log => (Normal o, o, log).

Definition modify (f : orchestrator → orchestrator) : M unit :=
  fun o log => (Normal tt, f o, log).

Definition raise {A : Type} (e : py_exception) : M A :=
  fun o log => (Raised e, o, log).

Definition return_ {A : Type} (r : response) : M A :=
  fun o log => (Returned r, o, log).

Definition lift {A : Type} (r : py_result A) : M A :=
  match r with
  | Ok a => ret a
  | Raise e => raise e
  end.

(** [d[key]] *)
Definition item {A : Type} (key : string) (v : option A) : M A :=
  match v with
  | Some a => ret a
  | None => raise (KeyError key)
  end.

(** [l[i]] *)
Definition index {A : Type} (l : list A) (i : nat) : M A :=
  match l !! i with
  | Some a => ret a
  | None => raise IndexError
  end.

(** A call to a collaborator: logged, then answered. *)
Definition ask {A : Type} (c : call) (answer : A) : M A :=
  fun o log => (Normal answer, o, log ++ [c]).

Definition ask_agent {A : Type} (c : call) (answer : agent_result A)
    : M (A + string) :=
  let! r := ask c answer in
  match r with
  | Succeeded a => ret (inl a)
  | Failed err => ret (inr err)
  | Crashed e => raise e
  end.

(** [try: body except Exception as e: handler(e)] *)
Definition try_except {A : Type} (body : M A) (handler : py_exception → M A) : M A :=
  fun o log =>
    match body o log with
    | (Raised e, o', log') => handler e o' log'
    | r => r
    end.

(** A public method: its body under the catch-all [except] clause. *)
Definition run_method (body : M response) (o : orchestrator)
    : response * orchestrator * list call :=
  match body o [] with
  | (Normal r, o', log) => (r, o', log)
  | (Returned r, o', log) => (r, o', log)
  | (Raised e, o', log) => (Resp_error (Err_exception e) false, o', log)
  end.

(* ===================================================================== *)
(** ** Orchestrator *)
(* ===================================================================== *)

(** [_generate_next_questions]: the whole body is under [try]; reading
    [self.candidate_data["role_type"]] comes before the call to the agent. *)
Definition _generate_next_questions (w : collaborators) (context : string)
    : M generation_result :=
  let! o := get in
  match candidate_data o with
  | None => ret (Not_generated "'role_type'")
  | Some _ => ask (Call_generate context) (generate w)
  end.

Definition fallback_decision : final_decision :=
  {| decision := Some "Requires Manual Review";
     overall_score := Some 0%Z;
     recommendation_summary :=
       Some "Unable to generate adaptive assessment decision." |}.

(** [_complete_adaptive_assessment(acknowledgment, reason)] *)
Definition _complete_adaptive_assessment (w : collaborators)
    (acknowledgment reason : string) : M response :=
  try_except
    (run! modify (set_interview_state completed) in
     run! modify (set_end_time (Some (now w))) in
     let! final_decision_result := ask_agent Call_final_decision (make_final_decision w) in
     let final_decision :=
       match final_decision_result with
       | inr _ => fallback_decision
       | inl fd => fd
       end in
     let! conclusion_result :=
       ask (Call_conclude (default "Complete" (decision final_decision))) (conclude w) in
     let conclusion_message :=
       default "Thank you for completing the adaptive Excel assessment!"
         (said conclusion_result) in
     let! o := get in
     let! started :=
       match start_time o with
       | Some t => ret t
       | None => raise TypeError
       end in
     run! modify (fun o =>
       set_interview_metadata
         {| md_start := md_start (interview_metadata o);
            md_completion := Some
              {| md_end_time := now w;
                 md_duration := (now w, started);
                 md_questions_completed := length (assessment_results o);
                 md_final_decision := final_decision;
                 md_adaptive_trajectory_decisions := length (trajectory_decisions o);
                 md_candidate_profile_final := candidate_profile o |} |} o) in
     ret (Resp_completed acknowledgment conclusion_message final_decision))
    (fun e => ret (Resp_error (Err_exception e) true)).

(** [start_interview] *)
Definition start_interview_body (w : collaborators) (info : candidate_info)
    : M response :=
  run! modify (set_candidate_data (Some info)) in
  run! modify (fun o =>
    let p := candidate_profile o in
    set_candidate_profile
      {| strengths := strengths p;
         weaknesses := weaknesses p;
         skill_trajectory := skill_trajectory p;
         preferred_difficulty := "Medium";
         areas_needing_focus := areas_needing_focus p;
         role_context := Some (role_type info);
         initial_difficulty := Some (difficulty_level info);
         focus_areas := Some (excel_focus_areas info) |} o) in
  run! modify (set_interview_metadata
    {| md_start := Some
         {| md_candidate := name info;
            md_role_context := role_type info;
            md_start_time := now w;
            md_max_questions := max_questions info;
            md_data_generation_enabled := include_datasets info |};
       md_completion := None |}) in
  run! modify (set_start_time (Some (now w))) in
  let! initial_questions := _generate_next_questions w "initial_assessment" in
  match initial_questions with
  | Not_generated err => return_ (Resp_error (Err_generate_initial err) false)
  | Generated questions _ _ =>
      run! modify (set_current_questions questions) in
      let! welcome_result := ask Call_welcome (welcome w) in
      match welcome_result with
      | Unavailable err => return_ (Resp_error (Err_start_interview err) false)
      | Said welcome_message =>
          let! o := get in
          let! first := index (current_questions o) 0 in
          let! first_question_result := ask (Call_present first 1) (present w) in
          match first_question_result with
          | Unavailable err => return_ (Resp_error (Err_present_first err) false)
          | Said presentation =>
              run! modify (set_interview_state in_progress) in
              run! modify (set_current_question_index 0) in
              let first_skill := default "Unknown" (skill_target first) in
              run! modify (fun o =>
                set_excel_skills_tested ({[ first_skill ]} ∪ excel_skills_tested o) o) in
              run! modify (fun o =>
                set_chat_history
                  (chat_history o ++ [Chat_interview_start (now w) welcome_message]) o) in
              let! qid := item "question_id" (question_id first) in
              run! modify (fun o =>
                set_chat_history
                  (chat_history o ++
                     [Chat_question (now w) qid presentation first
                        (dataset_generated first)]) o) in
              let! o' := get in
              ret (Resp_started first presentation (length (current_questions o')))
          end
      end
  end.

Definition start_interview (w : collaborators) (info : candidate_info)
    (o : orchestrator) : response * orchestrator * list call :=
  run_method (start_interview_body w info) o.

(** [process_response] *)
Definition process_response_body (w : collaborators) (answer : string)
    : M response :=
  let! o := get in
  if bool_decide (interview_state o ≠ in_progress) then
    return_ (Resp_error Err_not_in_progress false)
  else if length (current_questions o) <=? current_question_index o then
    return_ (Resp_error Err_no_current_question false)
  else
  let! current_question := index (current_questions o) (current_question_index o) in
  let! qid := item "question_id" (question_id current_question) in
  run! modify (fun o =>
    set_chat_history
      (chat_history o ++
         [Chat_response (now w) qid answer (skill_target current_question)
            (requires_dataset current_question)]) o) in
  let! evaluation_result :=
    ask_agent (Call_evaluate current_question answer) (evaluate w) in
  match evaluation_result with
  | inr err => return_ (Resp_error (Err_evaluate err) false)
  | inl evaluation_data =>
  run! modify (_update_candidate_profile (now w) current_question evaluation_data) in
  run! modify (fun o =>
    set_assessment_results
      (assessment_results o ++
         [{| question_index := length (assessment_results o);
             ar_question := current_question;
             candidate_answer := answer;
             ar_evaluation := evaluation_data;
             ar_timestamp := now w;
             excel_skill := skill_target current_question |}]) o) in
  if follow_up_needed evaluation_data then
    let suggestion :=
      default "Can you elaborate?" (follow_up_suggestion evaluation_data) in
    let! follow_up_result := ask (Call_clarify suggestion) (clarify w) in
    let! clarification := item "clarification_question" (said follow_up_result) in
    return_ (Resp_follow_up (justification evaluation_data) clarification)
  else
  let! acknowledgment_result := ask Call_acknowledge (acknowledge w) in
  let acknowledgment :=
    default "Thank you for your response." (said acknowledgment_result) in
  let! o1 := get in
  let! decision := lift (_should_continue_adaptive_assessment o1) in
  if negb (continue decision) then
    _complete_adaptive_assessment w acknowledgment (reason decision)
  else
  run! modify (fun o =>
    set_current_question_index (S (current_question_index o)) o) in
  let! o2 := get in
  run! (if length (current_questions o2) <=? current_question_index o2 then
          let! next_questions :=
            _generate_next_questions w "adaptive_continuation" in
          match next_questions with
          | Generated questions reasoning trajectory =>
              run! modify (fun o =>
                set_current_questions (current_questions o ++ questions) o) in
              modify (fun o =>
                set_trajectory_decisions
                  (trajectory_decisions o ++
                     [{| td_timestamp := now w;
                         td_reasoning := reasoning;
                         td_trajectory := trajectory;
                         td_questions_generated := length questions |}]) o)
          | Not_generated _ =>
              let! r :=
                _complete_adaptive_assessment w acknowledgment
                  "Failed to generate adaptive questions" in
              return_ r
          end
        else ret tt) in
  let! o3 := get in
  let! next_question := index (current_questions o3) (current_question_index o3) in
  let! next_question_result :=
    ask (Call_present next_question (length (assessment_results o3) + 1)) (present w) in
  match next_question_result with
  | Unavailable err => return_ (Resp_error (Err_present_next err) false)
  | Said presentation =>
      let next_skill := default "Unknown" (skill_target next_question) in
      run! modify (fun o =>
        set_excel_skills_tested ({[ next_skill ]} ∪ excel_skills_tested o) o) in
      let! next_qid := item "question_id" (question_id next_question) in
      run! modify (fun o =>
        set_chat_history
          (chat_history o ++
             [Chat_question (now w) next_qid presentation next_question
                (dataset_generated next_question)]) o) in
      ret (Resp_next acknowledgment next_question presentation evaluation_data)
  end
  end.

Definition process_response (w : collaborators) (answer : string)
    (o : orchestrator) : response * orchestrator * list call :=
  run_method (process_response_body w answer) o.

(* ===================================================================== *)
(** ** ResponseParser: [utils/json_parser.py] *)
(* ===================================================================== *)

(** The text handled by the parser is a [string] whose characters are the
    code points below 256; the two patterns are run on its list of
    characters. *)

(** The regular expressions of Python's [re] that the parser uses, under the
    flag [DOTALL]. *)
Inductive regex : Type :=
| Any                          (* [.] *)
| Lit (c : ascii)              (* a literal character *)
| Class (p : ascii → bool)     (* a character class *)
| Seq (r1 r2 : regex)
| Alt (r1 r2 : regex)          (* [r1|r2] *)
| Opt (r : regex)              (* [r?], greedy *)
| Star (r : regex)             (* [r*], greedy *)
| LazyStar (r : regex)         (* [r*?] *)
| Group (r : regex).           (* [(r)], the capturing group 1 *)

(** The backtracking matcher: [matches r k g s] matches [r] at the start of
    [s] and hands the group captured so far and the rest of the text to the
    continuation [k]; the alternatives are tried in the order of [re], and
    the first one whose continuation succeeds is the result.  An iteration
    of a star has to consume a character. *)
Fixpoint matches {T : Type} (r : regex)
    (k : option (list ascii) → list ascii → option T)
    (g : option (list ascii)) (s : list ascii) {struct r} : option T :=
  match r with
  | Any =>
      match s with
      | _ :: s' => k g s'
      | [] => None
      end
  | Lit c =>
      match s with
      | c' :: s' => if Ascii.eqb c c' then k g s' else None
      | [] => None
      end
  | Class p =>
      match s with
      | c' :: s' => if p c' then k g s' else None
      | [] => None
      end
  | Seq r1 r2 => matches r1 (fun g' s' => matches r2 k g' s') g s
  | Alt r1 r2 =>
      match matches r1 k g s with
      | Some x => Some x
      | None => matches r2 k g s
      end
  | Opt r1 =>
      match matches r1 k g s with
      | Some x => Some x
      | None => k g s
      end
  | Star r1 =>
      (fix loop (fuel : nat) (g : option (list ascii)) (s : list ascii)
           {struct fuel} : option T :=
         match fuel with
         | O => k g s
         | S fuel' =>
             match
               matches r1
                 (fun g' s' =>
                    if length s' <? length s then loop fuel' g' s' else None)
                 g s
             with
             | Some x => Some x
             | None => k g s
             end
         end) (length s) g s
  | LazyStar r1 =>
      (fix loop (fuel : nat) (g : option (list ascii)) (s : list ascii)
           {struct fuel} : option T :=
         match k g s with
         | Some x => Some x
         | None =>
             match fuel with
             | O => None
             | S fuel' =>
                 matches r1
                   (fun g' s' =>
                      if length s' <? length s then loop fuel' g' s' else None)
                   g s
             end
         end) (length s) g s
  | Group r1 =>
      matches r1 (fun _ s' => k (Some (take (length s - length s') s)) s') g s
  end.

(** A match at the start of [s]: the captured group and the rest. *)
Definition match_here (r : regex) (s : list ascii)
    : option (option (list ascii) * list ascii) :=
  matches r (fun g rest => Some (g, rest)) None s.

(** [re.search(r, s)]: the match at the leftmost position that has one. *)
Fixpoint search (r : regex) (s : list ascii)
    : option (option (list ascii) * list ascii) :=
  match match_here r s with
  | Some m => Some m
  | None =>
      match s with
      | _ :: s' => search r s'
      | [] => None
      end
  end.

(** [re.findall(r, s)] for a pattern without capturing group: the matched
    texts, leftmost first, each search resuming where the previous match
    ended. *)
Fixpoint findall_from (fuel : nat) (r : regex) (s : list ascii)
    : list (list ascii) :=
  match fuel with
  | O => []
  | S fuel' =>
      match match_here r s with
      | Some (_, rest) =>
          let matched := take (length s - length rest) s in
          if length rest <? length s then matched :: findall_from fuel' r rest
          else
            matched ::
              match s with
              | _ :: s' => findall_from fuel' r s'
              | [] => []
              end
      | None =>
          match s with
          | _ :: s' => findall_from fuel' r s'
          | [] => []
          end
      end
  end.

Definition findall (r : regex) (s : list ascii) : list (list ascii) :=
  findall_from (S (length s)) r s.

(** The literal text [t]. *)
Fixpoint lits (t : list ascii) (r : regex) : regex :=
  match t with
  | [] => r
  | c :: t' => Seq (Lit c) (lits t' r)
  end.

(** [\s] on the code points below 256. *)
Definition is_space (c : ascii) : bool :=
  let n := nat_of_ascii c in
  ((9 <=? n) && (n <=? 13)) || ((28 <=? n) && (n <=? 32))
  || (n =? 133) || (n =? 160).

(** [[^{}]] *)
Definition not_brace (c : ascii) : bool :=
  negb (Ascii.eqb c "{" || Ascii.eqb c "}").

Definition backtick : ascii := ascii_of_nat 96.

(** The pattern of the fenced block: three backticks, [(?:json)?], [\s*],
    the group [(\{.*?\})], [\s*], three backticks. *)
Definition fence_pattern : regex :=
  lits [backtick; backtick; backtick]
    (Seq (Opt (Seq (Lit "j") (Seq (Lit "s") (Seq (Lit "o") (Lit "n")))))
       (Seq (Star (Class is_space))
          (Seq (Group (Seq (Lit "{") (Seq (LazyStar Any) (Lit "}"))))
             (Seq (Star (Class is_space))
                (Seq (Lit backtick) (Seq (Lit backtick) (Lit backtick))))))).

(** [json_pattern]: [\{(?:[^{}]|{(?:[^{}]|{[^{}]*})*})*\}], built from the
    innermost braces outwards. *)
Definition braces (inside : regex) : regex :=
  Seq (Lit "{") (Seq (Star inside) (Lit "}")).

Definition json_pattern : regex :=
  braces (Alt (Class not_brace)
            (braces (Alt (Class not_brace) (braces (Class not_brace))))).

(** The result dict of [parse_json_response]. *)
Inductive parse_result (document : Type) : Type :=
| Parsed (data : document)
| Empty_response
| Unparseable (raw_response : string).
Arguments Parsed {document} data.
Arguments Empty_response {document}.
Arguments Unparseable {document} raw_response.

Section ResponseParser.

(** [json.loads] of the standard library, on a [str]: the document, or
    [None] for [JSONDecodeError]. *)
Context {document : Type} (json_loads : string → option document).

(** The [for match in json_matches] loop. *)
Fixpoint first_parsed (raw : string) (json_matches : list (list ascii))
    : parse_result document :=
  match json_matches with
  | [] => Unparseable raw
  | m :: rest =>
      match json_loads (string_of_list_ascii m) with
      | Some data => Parsed data
      | None => first_parsed raw rest
      end
  end.

(** [JSONParser.parse_json_response], on a [str]. *)
Definition parse_json_response (response_text : string)
    : parse_result document :=
  if bool_decide (response_text = EmptyString) then Empty_response
  else
    match json_loads response_text with
    | Some data => Parsed data
    | None =>
        let text := list_ascii_of_string response_text in
        let fenced :=
          match search fence_pattern text with
          | Some (Some group1, _) => json_loads (string_of_list_ascii group1)
          | _ => None
          end in
        match fenced with
        | Some data => Parsed data
        | None => first_parsed response_text (findall json_pattern text)
        end
    end.

(** The texts handed to [json.loads], in order, as the specification lists
    them: the whole text, the span of the fenced block, the brace-delimited
    spans. *)
Definition fenced_span (response_text : string) : list string :=
  match search fence_pattern (list_ascii_of_string response_text) with
  | Some (Some group1, _) => [string_of_list_ascii group1]
  | _ => []
  end.

Definition brace_spans (response_text : string) : list string :=
  map string_of_list_ascii
    (findall json_pattern (list_ascii_of_string response_text)).

Definition attempts (response_text : string) : list string :=
  response_text :: fenced_span response_text ++ brace_spans response_text.

(** The first text of a list that parses. *)
Fixpoint first_success (texts : list string) : option document :=
  match texts with
  | [] => None
  | t :: rest =>
      match json_loads t with
      | Some data => Some data
      | None => first_success rest
      end
  end.

End ResponseParser.

(** Counting braces along a text: from depth [d], a [{] goes one level up
    (never above [hi]), a [}] one level down (never below [lo]); the result
    is the depth at the end. *)
Fixpoint walk (lo hi d : nat) (s : list ascii) : option nat :=
  match s with
  | [] => Some d
  | c :: s' =>
      if Ascii.eqb c "{" then
        if S d <=? hi then walk lo hi (S d) s' else None
      else if Ascii.eqb c "}" then
        if S lo <=? d then walk lo hi (d - 1) s' else None
      else walk lo hi d s'
  end.

(** A span balanced to depth [n]: an opening brace, a text along which the
    depth stays between 1 and [n] and ends at 1, and the closing brace. *)
Definition balanced_span (n : nat) (m : list ascii) : Prop :=
  ∃ body, m = "{"%char :: body ++ ["}"%char] ∧ walk 1 n 1 body = Some 1.

(** The listed texts occur in the text in this order, without overlap. *)
Inductive in_order : list ascii → list (list ascii) → Prop :=
| in_order_nil (s : list ascii) : in_order s []
| in_order_cons (pre m rest : list ascii) (ms : list (list ascii)) :
    in_order rest ms → in_order (pre ++ m ++ rest) (m :: ms).

(** What a regular expression matches: [derives r s g g'] when [r] matches
    exactly the text [s], the group being [g] before and [g'] after. *)
Inductive derives : regex → list ascii → option (list ascii) →
    option (list ascii) → Prop :=
| derives_any (c : ascii) g : derives Any [c] g g
| derives_lit (c : ascii) g : derives (Lit c) [c] g g
| derives_class (p : ascii → bool) (c : ascii) g :
    p c = true → derives (Class p) [c] g g
| derives_seq r1 r2 s1 s2 g g1 g2 :
    derives r1 s1 g g1 → derives r2 s2 g1 g2 → derives (Seq r1 r2) (s1 ++ s2) g g2
| derives_alt_l r1 r2 s g g' : derives r1 s g g' → derives (Alt r1 r2) s g g'
| derives_alt_r r1 r2 s g g' : derives r2 s g g' → derives (Alt r1 r2) s g g'
| derives_opt_skip r g : derives (Opt r) [] g g
| derives_opt_take r s g g' : derives r s g g' → derives (Opt r) s g g'
| derives_star_stop r g : derives (Star r) [] g g
| derives_star_more r s1 s2 g g1 g2 :
    derives r s1 g g1 → derives (Star r) s2 g1 g2 →
    derives (Star r) (s1 ++ s2) g g2
| derives_lazy_stop r g : derives (LazyStar r) [] g g
| derives_lazy_more r s1 s2 g g1 g2 :
    derives r s1 g g1 → derives (LazyStar r) s2 g1 g2 →
    derives (LazyStar r) (s1 ++ s2) g g2
| derives_group r s g g' : derives r s g g' → derives (Group r) s g (Some s).

(** A fenced block around a span: three backticks, an optional [json], white
    space, the span delimited by braces, white space, three backticks. *)
Definition fence : list ascii := [backtick; backtick; backtick].

Definition fenced_block (m span : list ascii) : Prop :=
  ∃ tag ws1 body ws2,
    m = fence ++ tag ++ ws1 ++ span ++ ws2 ++ fence ∧
    (tag = [] ∨ tag = list_ascii_of_string "json") ∧
    Forall (λ c, is_space c = true) ws1 ∧
    Forall (λ c, is_space c = true) ws2 ∧
    span = "{"%char :: body ++ ["}"%char].

(** Sample texts. *)
Definition dq : string := String (ascii_of_nat 34) EmptyString.

Definition quoted (s : string) : string := dq +:+ s +:+ dq.

(** The object whose member a is the string made of one closing brace, and
    a text that holds it after a few words. *)
Definition value_object : string :=
  "{" +:+ quoted "a" +:+ ": " +:+ quoted "}" +:+ "}".

Definition brace_in_value : string := "Result: " +:+ value_object.

(** The object cut at the brace inside its string value. *)
Definition cut_object : string := "{" +:+ quoted "a" +:+ ": " +:+ dq +:+ "}".

(** A [json.loads] that rejects every text. *)
Definition rejects_all (_ : string) : option unit := None.

(* ===================================================================== *)
(** ** Sequences of calls *)
(* ===================================================================== *)

(** One call of [_update_candidate_profile]. *)
Record update_call : Type := {
  uc_now : timestamp;
  uc_question : question;
  uc_evaluation : evaluation
}.

Definition apply_update (o : orchestrator) (c : update_call) : orchestrator :=
  _update_candidate_profile (uc_now c) (uc_question c) (uc_evaluation c) o.

(** The trajectory entry that a call appends. *)
Definition entry_of (c : update_call) : trajectory_item :=
  {| ti_skill := default "Unknown" (skill_target (uc_question c));
     ti_score := default 0%Z (score (uc_evaluation c));
     ti_difficulty := default EmptyString (difficulty (uc_question c));
     ti_timestamp := uc_now c |}.

(** An evaluation dict with the key [score] (resp. [grade]) set or removed. *)
Definition with_score (s : option Z) (ev : evaluation) : evaluation :=
  {| score := s; grade := grade ev; justification := justification ev;
     follow_up_needed := follow_up_needed ev;
     follow_up_suggestion := follow_up_suggestion ev |}.

Definition with_grade (g : option string) (ev : evaluation) : evaluation :=
  {| score := score ev; grade := g; justification := justification ev;
     follow_up_needed := follow_up_needed ev;
     follow_up_suggestion := follow_up_suggestion ev |}.

(** One call of a public method, with the collaborators' answers to it. *)
Inductive method_call : Type :=
| Start (w : collaborators) (info : candidate_info)
| Process (w : collaborators) (answer : string).

Definition step (o : orchestrator) (c : method_call) : orchestrator :=
  match c with
  | Start w info => (start_interview w info o).1.2
  | Process w answer => (process_response w answer o).1.2
  end.

Definition run (o : orchestrator) (cs : list method_call) : orchestrator :=
  foldl step o cs.

(* ===================================================================== *)
(** ** The continue/stop policy as the specification words it *)
(* ===================================================================== *)

(** Spread (max minus min) of a list of scores. *)
Definition spread (l : list Z) : Z :=
  match l with
  | [] => 0%Z
  | x :: r => (foldr Z.max x r - foldr Z.min x r)%Z
  end.

(** [shouldContinue(assessmentRecords, maxQuestions, skillsTestedCount)],
    rule by rule in the order of the specification, over the scores of the
    records. *)
Definition shouldContinue (scores : list Z) (maxQuestions : Z)
    (skillsTestedCount : nat) : continue_decision :=
  let n := length scores in
  if decide (n < 4) then
    {| continue := true; reason := "Need minimum assessment coverage" |}
  else if decide (maxQuestions ≤ Z.of_nat n)%Z then
    {| continue := false; reason := "Reached maximum question limit" |}
  else if decide (6 ≤ n ∧ (spread (last_n 4 scores) < 15)%Z) then
    {| continue := false; reason := "Performance level established" |}
  else if decide (5 ≤ skillsTestedCount) then
    {| continue := false; reason := "Adequate skill coverage achieved" |}
  else
    {| continue := true; reason := "Continue adaptive assessment" |}.

(* ===================================================================== *)
(** ** Relations between the state before and after a statement *)
(* ===================================================================== *)

(** A statement [m] never leaves the relation [R]: the state it ends in,
    however it ends, is related to the state it started from. *)
Definition preserves (R : relation orchestrator) {A : Type} (m : M A) : Prop :=
  ∀ (o : orchestrator) (log : list call), R o (m o log).1.2.

(** The flags of the profile are kept: both lists only grow at the end. *)
Definition flags_kept (o o' : orchestrator) : Prop :=
  weaknesses (candidate_profile o) `prefix_of` weaknesses (candidate_profile o') ∧
  areas_needing_focus (candidate_profile o) `prefix_of`
    areas_needing_focus (candidate_profile o').

(** The batch is only appended to. *)
Definition batch_extended (o o' : orchestrator) : Prop :=
  current_questions o `prefix_of` current_questions o'.

(** The start time and the candidate data are not touched. *)
Definition keeps_start_data (o o' : orchestrator) : Prop :=
  start_time o = start_time o' ∧ candidate_data o = candidate_data o'.

(** The question-queue invariant. *)
Definition queue_invariant (o : orchestrator) : Prop :=
  current_question_index o ≤ length (current_questions o).

(* ===================================================================== *)
(** ** Sample data *)
(* ===================================================================== *)

Definition sample_question (qid skill : string) : question :=
  {| question_id := Some qid; question_text := Some "How would you ...";
     skill_target := Some skill; difficulty := Some "Medium";
     adaptive_reasoning := None; requires_dataset := false;
     dataset_generated := false |}.

Definition sample_evaluation (sc : Z) : evaluation :=
  {| score := Some sc; grade := Some "Satisfactory"; justification := None;
     follow_up_needed := false; follow_up_suggestion := None |}.

Definition answered (skill : string) (sc : Z) : update_call :=
  {| uc_now := "2024-01-01T00:00:00";
     uc_question := sample_question "q1" skill;
     uc_evaluation := sample_evaluation sc |}.

Definition sample_collaborators : collaborators :=
  {| now := "2024-01-01T00:00:00";
     generate :=
       Generated
         [sample_question "q1" "Pivot Tables and Data Analysis";
          sample_question "q2" "Basic Formulas and Functions"]
         "start broad" "baseline";
     welcome := Said "Welcome!";
     present := Said "Here is your question.";
     evaluate := Succeeded (sample_evaluation 50);
     clarify := Said "Could you say more about the ranges?";
     acknowledge := Said "Thank you.";
     make_final_decision :=
       Succeeded {| decision := Some "Pass"; overall_score := Some 75%Z;
                    recommendation_summary := Some "Solid." |};
     conclude := Said "Goodbye." |}.

Definition sample_info : candidate_info :=
  {| name := "Ada"; role_type := "Business Analyst";
     difficulty_level := "Mixed Assessment"; excel_focus_areas := [];
     max_questions := 10%Z; include_datasets := true |}.

(** The same collaborators, with another answer of one of them. *)
Definition with_evaluate (r : agent_result evaluation) (w : collaborators)
    : collaborators :=
  {| now := now w; generate := generate w; welcome := welcome w;
     present := present w; evaluate := r; clarify := clarify w;
     acknowledge := acknowledge w; make_final_decision := make_final_decision w;
     conclude := conclude w |}.

Definition with_generate (r : generation_result) (w : collaborators)
    : collaborators :=
  {| now := now w; generate := r; welcome := welcome w;
     present := present w; evaluate := evaluate w; clarify := clarify w;
     acknowledge := acknowledge w; make_final_decision := make_final_decision w;
     conclude := conclude w |}.

Definition with_welcome (r : reply) (w : collaborators) : collaborators :=
  {| now := now w; generate := generate w; welcome := r;
     present := present w; evaluate := evaluate w; clarify := clarify w;
     acknowledge := acknowledge w; make_final_decision := make_final_decision w;
     conclude := conclude w |}.

Definition with_clarify (r : reply) (w : collaborators) : collaborators :=
  {| now := now w; generate := generate w; welcome := welcome w;
     present := present w; evaluate := evaluate w; clarify := r;
     acknowledge := acknowledge w; make_final_decision := make_final_decision w;
     conclude := conclude w |}.

Definition with_make_final_decision (r : agent_result final_decision)
    (w : collaborators) : collaborators :=
  {| now := now w; generate := generate w; welcome := welcome w;
     present := present w; evaluate := evaluate w; clarify := clarify w;
     acknowledge := acknowledge w; make_final_decision := r;
     conclude := conclude w |}.

(** The orchestrator after a successful [start_interview]. *)
Definition started : orchestrator :=
  (start_interview sample_collaborators sample_info init).1.2.

(** An evaluation that asks for a follow-up. *)
Definition unclear_evaluation : evaluation :=
  {| score := Some 55%Z; grade := Some "Requires More Assessment";
     justification := Some "The approach is not clear yet.";
     follow_up_needed := true;
     follow_up_suggestion := Some "the lookup range" |}.

(** A state whose records carry the given scores. *)
Definition record_scoring (sc : Z) : assessment_record :=
  {| question_index := 0; ar_question := sample_question "q1" "Pivot Tables";
     candidate_answer := "I would use a pivot table.";
     ar_evaluation := sample_evaluation sc;
     ar_timestamp := "2024-01-01T00:00:00"; excel_skill := Some "Pivot Tables" |}.

Definition scored (scores : list Z) : orchestrator :=
  set_assessment_results (map record_scoring scores) started.

(** In a sequence of calls, every [start_interview] finds the orchestrator
    not started (the precondition that the specification gives to it). *)
Fixpoint starts_fresh (o : orchestrator) (cs : list method_call) : Prop :=
  match cs with
  | [] => True
  | c :: rest =>
      match c with
      | Start _ _ => interview_state o = not_started
      | Process _ _ => True
      end ∧ starts_fresh (step o c) rest
  end.

(** The record that [process_response] builds for an evaluated answer. *)
Definition record_of (w : collaborators) (o : orchestrator) (q : question)
    (answer : string) (ev : evaluation) : assessment_record :=
  {| question_index := length (assessment_results o);
     ar_question := q;
     candidate_answer := answer;
     ar_evaluation := ev;
     ar_timestamp := now w;
     excel_skill := skill_target q |}.
(* ===================================================================== *)
(** * Properties *)
(* ===================================================================== *)

(** ** Helper lemmas on lists and means *)

Lemma Qle_bool_mean (c : Z) (l : list Z) :
  l ≠ [] →
  Qle_bool (inject_Z c) (mean l) = (c * Z.of_nat (length l) <=? sum_Z l)%Z.
Proof.
  intros Hl. destruct l as [|x r]; [done|].
  unfold mean. generalize (sum_Z (x :: r)). intros s.
  simpl length. rewrite Nat2Z.inj_succ, <- Zpos_P_of_succ_nat.
  unfold Qle_bool, Qdiv, Qmult, Qinv, inject_Z. simpl.
  f_equal; lia.
Qed.

Lemma last_n_app_singleton {A : Type} (n : nat) (l : list A) (x : A) :
  last_n (S n) (l ++ [x]) = last_n n l ++ [x].
Proof.
  unfold last_n. rewrite length_app. simpl.
  replace (length l + 1 - S n) with (length l - n) by lia.
  rewrite drop_app_le by lia. done.
Qed.

Lemma last_n_length {A : Type} (n : nat) (l : list A) :
  length (last_n n l) = min n (length l).
Proof. unfold last_n. rewrite length_drop. lia. Qed.

Lemma last_n_min {A : Type} (n : nat) (l : list A) :
  last_n (min n (length l)) l = last_n n l.
Proof. unfold last_n. f_equal. lia. Qed.

Lemma append_if_absent_prefix (x : string) (l : list string) :
  l `prefix_of` append_if_absent x l.
Proof.
  unfold append_if_absent. case_bool_decide; [done|]. by apply prefix_app_r.
Qed.

Lemma append_if_absent_elem (x : string) (l : list string) :
  x ∈ append_if_absent x l.
Proof.
  unfold append_if_absent. case_bool_decide; [done|]. set_solver.
Qed.

Lemma append_if_absent_decide (P : Prop) `{Decision P} (b : bool) (x : string)
    (l : list string) :
  (b = true ↔ P) →
  (if b then append_if_absent x l else l) =
  (if decide (P ∧ x ∉ l) then l ++ [x] else l).
Proof.
  intros Hb. unfold append_if_absent.
  destruct b.
  - assert (HP : P) by (by apply Hb).
    case_bool_decide.
    + rewrite decide_False; [done|]. intros [_ Hn]. done.
    + rewrite decide_True; done.
  - rewrite decide_False; [done|].
    intros [HP _]. apply Hb in HP. done.
Qed.

(** The classification of [adjust_preferred_difficulty] on a non-empty
    trajectory, as inequalities on the mean of the recent scores. *)
Lemma adjust_preferred_difficulty_mean (trajectory : list trajectory_item)
    (current : string) :
  trajectory ≠ [] →
  let recent := map ti_score (last_n (min 3 (length trajectory)) trajectory) in
  let d := adjust_preferred_difficulty trajectory current in
  (d = "Hard" ↔ Qle (inject_Z 85) (mean recent)) ∧
  (d = "Medium" ↔
     Qle (inject_Z 70) (mean recent) ∧ Qlt (mean recent) (inject_Z 85)) ∧
  (d = "Easy" ↔ Qlt (mean recent) (inject_Z 70)).
Proof.
  intros Hne recent d. subst recent d. rewrite last_n_min.
  unfold adjust_preferred_difficulty.
  destruct (map ti_score (last_n 3 trajectory)) as [|s ss] eqn:E.
  { apply (f_equal length) in E. rewrite length_map, last_n_length in E.
    destruct trajectory; [done|]. simpl in E. lia. }
  set (m := mean (s :: ss)).
  assert (H70_85 : Qle (inject_Z 85) m → Qle (inject_Z 70) m).
  { intros H. eapply Qle_trans; [|exact H]. by apply Qle_bool_iff. }
  destruct (Qle_bool (inject_Z 85) m) eqn:E85.
  { apply Qle_bool_iff in E85. repeat split; try done.
    - intros [_ Hlt]. by apply Qlt_not_le in Hlt.
    - intros Hlt. apply Qlt_not_le in Hlt. by destruct Hlt; auto. }
  assert (N85 : ¬ Qle (inject_Z 85) m).
  { intros H. apply Qle_bool_iff in H. congruence. }
  destruct (Qle_bool (inject_Z 70) m) eqn:E70.
  { apply Qle_bool_iff in E70. repeat split; try done.
    - by apply Qnot_le_lt.
    - intros Hlt. by apply Qlt_not_le in Hlt. }
  assert (N70 : ¬ Qle (inject_Z 70) m).
  { intros H. apply Qle_bool_iff in H. congruence. }
  repeat split; try done.
  - intros [H _]. done.
  - intros _. by apply Qnot_le_lt.
Qed.

Lemma apply_update_trajectory (calls : list update_call) (o : orchestrator) :
  skill_trajectory (candidate_profile (foldl apply_update o calls)) =
  skill_trajectory (candidate_profile o) ++ map entry_of calls.
Proof.
  revert o. induction calls as [|c calls IH]; intros o; simpl.
  - by rewrite app_nil_r.
  - rewrite IH. simpl. by rewrite <- app_assoc.
Qed.


(** The scenarios of the specification: four weak answers on one skill,
    and five strong answers on five skills. *)
Example four_weak_answers :
  let p :=
    candidate_profile
      (foldl apply_update init
         [answered "Pivot Tables" 30; answered "Pivot Tables" 25;
          answered "Pivot Tables" 35; answered "Pivot Tables" 20]) in
  weaknesses p = ["Pivot Tables"] ∧ strengths p = [] ∧
  preferred_difficulty p = "Easy" ∧ length (skill_trajectory p) = 4.
Proof. vm_compute. by split_and!. Qed.

Example five_strong_answers :
  let p :=
    candidate_profile
      (foldl apply_update init
         [answered "Basic Formulas and Functions" 90;
          answered "Data Manipulation and Cleaning" 90;
          answered "Pivot Tables and Data Analysis" 90;
          answered "Data Visualization and Charts" 90;
          answered "Conditional Logic and IF Statements" 90]) in
  strengths p =
    ["Basic Formulas and Functions"; "Data Manipulation and Cleaning";
     "Pivot Tables and Data Analysis"; "Data Visualization and Charts";
     "Conditional Logic and IF Statements"] ∧
  weaknesses p = [] ∧ preferred_difficulty p = "Hard".
Proof. vm_compute. by split_and!. Qed.

(** ** Relations that every statement of a method preserves *)

Section Preserves.
Context (R : relation orchestrator) `{!PreOrder R}.

Lemma preserves_ret {A : Type} (a : A) : preserves R (ret a).
Proof. intros o log. simpl. reflexivity. Qed.

Lemma preserves_get : preserves R get.
Proof. intros o log. simpl. reflexivity. Qed.

Lemma preserves_raise {A : Type} (e : py_exception) : preserves R (@raise A e).
Proof. intros o log. simpl. reflexivity. Qed.

Lemma preserves_return {A : Type} (r : response) : preserves R (@return_ A r).
Proof. intros o log. simpl. reflexivity. Qed.

Lemma preserves_ask {A : Type} (c : call) (a : A) : preserves R (ask c a).
Proof. intros o log. simpl. reflexivity. Qed.

Lemma preserves_modify (f : orchestrator → orchestrator) :
  (∀ o, R o (f o)) → preserves R (modify f).
Proof. intros Hf o log. simpl. apply Hf. Qed.

Lemma preserves_bind {A B : Type} (m : M A) (k : A → M B) :
  preserves R m → (∀ a, preserves R (k a)) → preserves R (bind m k).
Proof.
  intros Hm Hk o log. unfold bind.
  specialize (Hm o log).
  destruct (m o log) as [[[a|r|e] o'] log']; simpl in *; try done.
  etransitivity; [exact Hm|]. apply Hk.
Qed.

Lemma preserves_lift {A : Type} (r : py_result A) : preserves R (lift r).
Proof. destruct r; [apply preserves_ret|apply preserves_raise]. Qed.

Lemma preserves_item {A : Type} (key : string) (v : option A) :
  preserves R (item key v).
Proof. destruct v; [apply preserves_ret|apply preserves_raise]. Qed.

Lemma preserves_index {A : Type} (l : list A) (i : nat) : preserves R (index l i).
Proof. unfold index. destruct (l !! i); [apply preserves_ret|apply preserves_raise]. Qed.

Lemma preserves_ask_agent {A : Type} (c : call) (a : agent_result A) :
  preserves R (ask_agent c a).
Proof.
  unfold ask_agent. apply preserves_bind; [apply preserves_ask|].
  intros [?|?|?]; [apply preserves_ret|apply preserves_ret|apply preserves_raise].
Qed.

Lemma preserves_try_except {A : Type} (body : M A) (handler : py_exception → M A) :
  preserves R body → (∀ e, preserves R (handler e)) → preserves R (try_except body handler).
Proof.
  intros Hb Hh o log. unfold try_except.
  specialize (Hb o log).
  destruct (body o log) as [[[a|r|e] o'] log']; simpl in *; try done.
  etransitivity; [exact Hb|]. apply Hh.
Qed.

Lemma preserves_run_method (body : M response) (o : orchestrator) :
  preserves R body → R o (run_method body o).1.2.
Proof.
  intros Hb. unfold run_method. specialize (Hb o []).
  by destruct (body o []) as [[[a|r|e] o'] log'].
Qed.

(** The relation holds along the methods as soon as it holds across each
    field assignment they make. *)
Hypothesis R_chat : ∀ v o, R o (set_chat_history v o).
Hypothesis R_state : ∀ v o, R o (set_interview_state v o).
Hypothesis R_end : ∀ v o, R o (set_end_time v o).
Hypothesis R_start : ∀ v o, R o (set_start_time v o).
Hypothesis R_metadata : ∀ v o, R o (set_interview_metadata v o).
Hypothesis R_data : ∀ v o, R o (set_candidate_data v o).
Hypothesis R_skills : ∀ v o, R o (set_excel_skills_tested v o).
Hypothesis R_decisions : ∀ v o, R o (set_trajectory_decisions v o).
Hypothesis R_results : ∀ v o, R o (set_assessment_results v o).
Hypothesis R_update : ∀ now q ev o, R o (_update_candidate_profile now q ev o).
Hypothesis R_cursor : ∀ o, R o (set_current_question_index (S (current_question_index o)) o).
Hypothesis R_extend : ∀ qs o, R o (set_current_questions (current_questions o ++ qs) o).

Lemma preserves_generate (w : collaborators) (context : string) :
  preserves R (_generate_next_questions w context).
Proof.
  unfold _generate_next_questions.
  apply preserves_bind; [apply preserves_get|]. intros o.
  destruct (candidate_data o); [apply preserves_ask|apply preserves_ret].
Qed.

Lemma preserves_complete (w : collaborators) (ack why : string) :
  preserves R (_complete_adaptive_assessment w ack why).
Proof.
  unfold _complete_adaptive_assessment.
  apply preserves_try_except; [|intros e; apply preserves_ret].
  apply preserves_bind; [by apply preserves_modify|]. intros _.
  apply preserves_bind; [by apply preserves_modify|]. intros _.
  apply preserves_bind; [apply preserves_ask_agent|]. intros fd.
  apply preserves_bind; [apply preserves_ask|]. intros concl.
  apply preserves_bind; [apply preserves_get|]. intros o.
  apply preserves_bind.
  { destruct (start_time o); [apply preserves_ret|apply preserves_raise]. }
  intros started.
  apply preserves_bind; [by apply preserves_modify|]. intros _.
  apply preserves_ret.
Qed.

Lemma preserves_process_response_body (w : collaborators) (answer : string) :
  preserves R (process_response_body w answer).
Proof.
  unfold process_response_body.
  apply preserves_bind; [apply preserves_get|]. intros o.
  case_bool_decide; [apply preserves_return|].
  case_match; [apply preserves_return|].
  apply preserves_bind; [apply preserves_index|]. intros q.
  apply preserves_bind; [apply preserves_item|]. intros qid.
  apply preserves_bind; [by apply preserves_modify|]. intros _.
  apply preserves_bind; [apply preserves_ask_agent|]. intros [ev|err];
    [|apply preserves_return].
  apply preserves_bind; [by apply preserves_modify|]. intros _.
  apply preserves_bind; [by apply preserves_modify|]. intros _.
  case_match.
  { apply preserves_bind; [apply preserves_ask|]. intros fu.
    apply preserves_bind; [apply preserves_item|]. intros text.
    apply preserves_return. }
  apply preserves_bind; [apply preserves_ask|]. intros ack.
  apply preserves_bind; [apply preserves_get|]. intros o1.
  apply preserves_bind; [apply preserves_lift|]. intros d.
  case_match; [apply preserves_complete|].
  apply preserves_bind; [by apply preserves_modify|]. intros _.
  apply preserves_bind; [apply preserves_get|]. intros o2.
  apply preserves_bind.
  { case_match; [|apply preserves_ret].
    apply preserves_bind; [apply preserves_generate|]. intros [qs r t|err].
    - apply preserves_bind; [by apply preserves_modify|]. intros _.
      by apply preserves_modify.
    - apply preserves_bind; [apply preserves_complete|]. intros r.
      apply preserves_return. }
  intros _.
  apply preserves_bind; [apply preserves_get|]. intros o3.
  apply preserves_bind; [apply preserves_index|]. intros nq.
  apply preserves_bind; [apply preserves_ask|]. intros [text|err];
    [|apply preserves_return].
  apply preserves_bind; [by apply preserves_modify|]. intros _.
  apply preserves_bind; [apply preserves_item|]. intros nqid.
  apply preserves_bind; [by apply preserves_modify|]. intros _.
  apply preserves_ret.
Qed.

Lemma preserves_process_response (w : collaborators) (answer : string)
    (o : orchestrator) :
  R o (process_response w answer o).1.2.
Proof. apply preserves_run_method, preserves_process_response_body. Qed.

(** [start_interview] also assigns the batch, resets the cursor and writes
    the context keys of the profile. *)
Hypothesis R_questions : ∀ v o, R o (set_current_questions v o).
Hypothesis R_cursor_any : ∀ v o, R o (set_current_question_index v o).
Hypothesis R_profile : ∀ v o,
  strengths v = strengths (candidate_profile o) →
  weaknesses v = weaknesses (candidate_profile o) →
  skill_trajectory v = skill_trajectory (candidate_profile o) →
  areas_needing_focus v = areas_needing_focus (candidate_profile o) →
  R o (set_candidate_profile v o).

Lemma preserves_start_interview_body (w : collaborators) (info : candidate_info) :
  preserves R (start_interview_body w info).
Proof.
  unfold start_interview_body.
  apply preserves_bind; [by apply preserves_modify|]. intros _.
  apply preserves_bind.
  { apply preserves_modify. intros o. by apply R_profile. }
  intros _.
  apply preserves_bind; [by apply preserves_modify|]. intros _.
  apply preserves_bind; [by apply preserves_modify|]. intros _.
  apply preserves_bind; [apply preserves_generate|]. intros [qs r t|err];
    [|apply preserves_return].
  apply preserves_bind; [by apply preserves_modify|]. intros _.
  apply preserves_bind; [apply preserves_ask|]. intros [hello|err];
    [|apply preserves_return].
  apply preserves_bind; [apply preserves_get|]. intros o.
  apply preserves_bind; [apply preserves_index|]. intros q.
  apply preserves_bind; [apply preserves_ask|]. intros [text|err];
    [|apply preserves_return].
  apply preserves_bind; [by apply preserves_modify|]. intros _.
  apply preserves_bind; [by apply preserves_modify|]. intros _.
  apply preserves_bind; [by apply preserves_modify|]. intros _.
  apply preserves_bind; [by apply preserves_modify|]. intros _.
  apply preserves_bind; [apply preserves_item|]. intros qid.
  apply preserves_bind; [by apply preserves_modify|]. intros _.
  apply preserves_bind; [apply preserves_get|]. intros o'.
  apply preserves_ret.
Qed.

Lemma preserves_step (c : method_call) (o : orchestrator) : R o (step o c).
Proof.
  destruct c as [w info|w answer]; simpl.
  - apply preserves_run_method, preserves_start_interview_body.
  - apply preserves_process_response.
Qed.

Lemma preserves_run (cs : list method_call) (o : orchestrator) : R o (run o cs).
Proof.
  revert o. induction cs as [|c cs IH]; intros o; simpl; [reflexivity|].
  etransitivity; [apply preserves_step|apply IH].
Qed.

End Preserves.

(** ** The flags of the profile *)

Global Instance flags_kept_preorder : PreOrder flags_kept.
Proof.
  split.
  - intros o. by split.
  - intros a b c [H1 H2] [H3 H4]. split; by etransitivity.
Qed.

Lemma update_flags_kept (now : timestamp) (q : question) (ev : evaluation)
    (o : orchestrator) :
  flags_kept o (_update_candidate_profile now q ev o).
Proof.
  unfold flags_kept. simpl.
  split; repeat case_match; try done; apply append_if_absent_prefix.
Qed.

Lemma apply_updates_flags_kept (calls : list update_call) (o : orchestrator) :
  flags_kept o (foldl apply_update o calls).
Proof.
  revert o. induction calls as [|c calls IH]; intros o; simpl; [reflexivity|].
  etransitivity; [apply update_flags_kept|apply IH].
Qed.

Lemma run_flags_kept (cs : list method_call) (o : orchestrator) :
  flags_kept o (run o cs).
Proof.
  apply preserves_run; try (intros; by split); try apply _.
  - intros. apply update_flags_kept.
  - intros v o' _ Hw _ Ha. unfold flags_kept. simpl. by rewrite Hw, Ha.
Qed.

(** C7. The weaknesses and the areas needing focus only grow: along every
    sequence of update calls, a skill that is in the weaknesses (resp. the
    areas needing focus) after some of the calls is still there after all
    the later ones, whatever their scores; both lists keep their earlier
    content as a prefix.  The same holds along every sequence of calls of
    [start_interview] and [process_response]. *)
Theorem weaknesses_never_removed :
  ∀ (earlier later : list update_call) (o : orchestrator) (skill : string),
    let reached := foldl apply_update o earlier in
    let final := foldl apply_update reached later in
    (skill ∈ weaknesses (candidate_profile reached) →
     skill ∈ weaknesses (candidate_profile final)) ∧
    (skill ∈ areas_needing_focus (candidate_profile reached) →
     skill ∈ areas_needing_focus (candidate_profile final)) ∧
    flags_kept reached final ∧
    (∀ cs : list method_call, flags_kept reached (run reached cs)).
Proof.
  intros earlier later o skill reached final.
  pose proof (apply_updates_flags_kept later reached) as [Hw Ha].
  fold final in Hw, Ha.
  split; [|split; [|split]].
  - intros Hin. destruct Hw as [k ->]. set_solver.
  - intros Hin. destruct Ha as [k ->]. set_solver.
  - by split.
  - intros cs. apply run_flags_kept.
Qed.

Lemma weaknesses_never_removed_witness :
  "Pivot Tables" ∈
     weaknesses (candidate_profile
       (foldl apply_update init [answered "Pivot Tables" 30])) ∧
  "Pivot Tables" ∈
     weaknesses (candidate_profile
       (foldl apply_update
          (foldl apply_update init [answered "Pivot Tables" 30])
          [answered "Pivot Tables" 95; answered "Pivot Tables" 90])).
Proof.
  assert (H : "Pivot Tables" ∈
     weaknesses (candidate_profile
       (foldl apply_update init [answered "Pivot Tables" 30]))).
  { vm_compute. apply list_elem_of_here. }
  split; [exact H|].
  exact (proj1 (weaknesses_never_removed [answered "Pivot Tables" 30]
           [answered "Pivot Tables" 95; answered "Pivot Tables" 90]
           init "Pivot Tables") H).
Defined.

(** ** A missing score *)


(** ** The continue/stop policy *)

Lemma scores_of_length (l : list assessment_record) (ss : list Z) :
  scores_of l = Ok ss → length ss = length l.
Proof.
  revert ss. induction l as [|r l IH]; intros ss; simpl.
  - by intros [= <-].
  - destruct (score (ar_evaluation r)); [|done].
    destruct (scores_of l) as [ss'|]; [|done].
    intros [= <-]. simpl. f_equal. by apply IH.
Qed.

Lemma scores_of_drop (k : nat) (l : list assessment_record) (ss : list Z) :
  scores_of l = Ok ss → scores_of (drop k l) = Ok (drop k ss).
Proof.
  revert l ss. induction k as [|k IH]; intros l ss; [by rewrite !drop_0|].
  destruct l as [|r l]; simpl.
  - by intros [= <-].
  - destruct (score (ar_evaluation r)); [|done].
    destruct (scores_of l) as [ss'|] eqn:E; [|done].
    intros [= <-]. simpl. by apply IH.
Qed.

Lemma scores_of_last_n (k : nat) (l : list assessment_record) (ss : list Z) :
  scores_of l = Ok ss → scores_of (last_n k l) = Ok (last_n k ss).
Proof.
  intros H. unfold last_n. rewrite (scores_of_length _ _ H).
  by apply scores_of_drop.
Qed.

Lemma max_min_spread (l : list Z) :
  l ≠ [] → ∃ hi lo, max_Z l = Some hi ∧ min_Z l = Some lo ∧ spread l = (hi - lo)%Z.
Proof. destruct l as [|x r]; [done|]. intros _. by eexists _, _. Qed.

(** C2. [_should_continue_adaptive_assessment] applies the rules of the
    specification in their order, the first that matches deciding: on a
    state whose records all carry a score it returns what [shouldContinue]
    returns for those scores, the maximum of the candidate data (10 when
    there is none) and the number of distinct skills tested.  With fewer
    than four records it returns continue, whatever the scores (and whether
    or not they are there). *)
Theorem should_continue_rules :
  (∀ (o : orchestrator) (scores : list Z),
     scores_of (assessment_results o) = Ok scores →
     _should_continue_adaptive_assessment o =
       Ok (shouldContinue scores
             (from_option max_questions 10%Z (candidate_data o))
             (size (excel_skills_tested o)))) ∧
  (∀ o : orchestrator,
     length (assessment_results o) < 4 →
     _should_continue_adaptive_assessment o =
       Ok {| continue := true; reason := "Need minimum assessment coverage" |}).
Proof.
  split.
  - intros o scores Hs.
    pose proof (scores_of_length _ _ Hs) as Hlen.
    unfold _should_continue_adaptive_assessment, shouldContinue.
    rewrite Hlen. set (n := length (assessment_results o)) in *.
    destruct (Nat.ltb_spec n 4) as [H4|H4].
    { by rewrite decide_True by lia. }
    rewrite (decide_False (P := n < 4)) by lia.
    set (mx := from_option max_questions 10%Z (candidate_data o)).
    destruct (Z.leb_spec mx (Z.of_nat n)) as [Hm|Hm].
    { by rewrite decide_True by lia. }
    rewrite (decide_False (P := (mx ≤ Z.of_nat n)%Z)) by lia.
    destruct (Nat.leb_spec 6 n) as [H6|H6].
    + rewrite (scores_of_last_n 4 _ _ Hs).
      destruct (max_min_spread (last_n 4 scores)) as (hi & lo & -> & -> & Hsp).
      { intros E. apply (f_equal length) in E.
        rewrite last_n_length in E. change (length []) with 0 in E. lia. }
      rewrite Hsp.
      destruct (Z.ltb_spec (hi - lo) 15) as [Hv|Hv].
      { by rewrite decide_True by (split; lia). }
      rewrite (decide_False (P := 6 ≤ n ∧ _)) by lia.
      destruct (Nat.leb_spec 5 (size (excel_skills_tested o))).
      * by rewrite decide_True by lia.
      * by rewrite decide_False by lia.
    + rewrite (decide_False (P := 6 ≤ n ∧ _)) by lia.
      destruct (Nat.leb_spec 5 (size (excel_skills_tested o))).
      * by rewrite decide_True by lia.
      * by rewrite decide_False by lia.
  - intros o H4. unfold _should_continue_adaptive_assessment.
    destruct (Nat.ltb_spec (length (assessment_results o)) 4); [done|lia].
Qed.

Lemma should_continue_rules_witness :
  _should_continue_adaptive_assessment (scored [50; 90; 70; 72; 68; 75]%Z) =
    Ok {| continue := false; reason := "Performance level established" |} ∧
  _should_continue_adaptive_assessment (scored [10; 10; 10]%Z) =
    Ok {| continue := true; reason := "Need minimum assessment coverage" |}.
Proof.
  split.
  - rewrite (proj1 should_continue_rules
               (scored [50; 90; 70; 72; 68; 75]%Z) [50; 90; 70; 72; 68; 75]%Z);
      [|reflexivity].
    vm_compute. reflexivity.
  - apply (proj2 should_continue_rules). simpl. lia.
Defined.

(** ** Running the methods on a symbolic state *)

Ltac unfold_monad :=
  unfold process_response, start_interview, run_method,
    process_response_body, start_interview_body,
    _complete_adaptive_assessment, _generate_next_questions,
    try_except, ask_agent, ask, item, index, lift, bind, get, modify,
    raise, return_, ret in *.

Ltac split_all :=
  repeat match goal with
  | |- context [bool_decide ?P] => destruct (bool_decide_reflect P)
  | |- context [Nat.leb ?a ?b] => destruct (Nat.leb_spec a b)
  | |- context [match ?x with _ => _ end] =>
      lazymatch x with
      | context [match _ with _ => _ end] => fail
      | _ => destruct x eqn:?
      end
  end; simpl in *.

(** The guards of [process_response] on a state in progress whose cursor
    addresses a question. *)
Ltac enter_process_response Hs Hq :=
  unfold_monad;
  rewrite bool_decide_false by (rewrite Hs; intros H; by apply H);
  let Hlt := fresh "Hlt" in
  pose proof (lookup_lt_Some _ _ _ Hq) as Hlt;
  match goal with
  | |- context [Nat.leb ?a ?b] => destruct (Nat.leb_spec a b); [lia|]
  end;
  rewrite Hq; simpl.

(** ** A failed evaluation *)

(** C1, as the code has it. In a state in progress whose cursor addresses a
    question, when the evaluator call does not succeed (it hands back a
    failure or raises), [process_response] returns a failure: the evaluation
    error when the evaluator handed back a failure.  No assessment record is
    appended; the profile, the cursor, the batch, the skills tested and the
    per-skill performance are unchanged.  The chat history is not: the
    answer was appended to it before the evaluator was called (when the
    question carries its [question_id]), and that entry stays. *)
Theorem failed_evaluation_keeps_all_but_chat :
  ∀ (w : collaborators) (answer : string) (o : orchestrator) (q : question),
    interview_state o = in_progress →
    current_questions o !! current_question_index o = Some q →
    (∀ ev, evaluate w ≠ Succeeded ev) →
    let r := (process_response w answer o).1.1 in
    let o' := (process_response w answer o).1.2 in
    success r = false ∧
    (∀ qid err, question_id q = Some qid → evaluate w = Failed err →
       r = Resp_error (Err_evaluate err) false) ∧
    o' = set_chat_history
           (chat_history o ++
              match question_id q with
              | Some qid =>
                  [Chat_response (now w) qid answer (skill_target q)
                     (requires_dataset q)]
              | None => []
              end) o ∧
    assessment_results o' = assessment_results o ∧
    candidate_profile o' = candidate_profile o ∧
    current_question_index o' = current_question_index o ∧
    current_questions o' = current_questions o ∧
    excel_skills_tested o' = excel_skills_tested o ∧
    excel_performance_by_skill o' = excel_performance_by_skill o ∧
    interview_state o' = in_progress.
Proof.
  intros w answer o q Hs Hq He. cbv zeta.
  enter_process_response Hs Hq.
  destruct (question_id q) as [qid|]; simpl.
  - destruct (evaluate w) as [ev|err|e] eqn:E; simpl.
    + by destruct (He ev).
    + repeat split; try done. by intros ? ? [= <-] [= <-].
    + repeat split; try done.
  - rewrite app_nil_r. repeat split; try done. by destruct o.
Qed.

Lemma failed_evaluation_keeps_all_but_chat_witness :
  let w := with_evaluate (Failed "quota exceeded") sample_collaborators in
  success (process_response w "I would use VLOOKUP." started).1.1 = false ∧
  assessment_results (process_response w "I would use VLOOKUP." started).1.2 =
    assessment_results started.
Proof.
  pose proof (failed_evaluation_keeps_all_but_chat
    (with_evaluate (Failed "quota exceeded") sample_collaborators)
    "I would use VLOOKUP." started
    (sample_question "q1" "Pivot Tables and Data Analysis")
    eq_refl eq_refl ltac:(done)) as H.
  cbv zeta in *. split; [apply H|]. apply H.
Defined.

(** C1 as stated fails: after a failed evaluation the chat history holds
    one more entry than before. *)
Lemma failed_evaluation_extends_chat_history :
  let w := with_evaluate (Failed "quota exceeded") sample_collaborators in
  let o' := (process_response w "I would use VLOOKUP." started).1.2 in
  interview_state started = in_progress ∧
  is_Some (current_questions started !! current_question_index started) ∧
  success (process_response w "I would use VLOOKUP." started).1.1 = false ∧
  length (chat_history o') = S (length (chat_history started)) ∧
  chat_history o' ≠ chat_history started ∧
  o' ≠ started.
Proof.
  cbv zeta.
  assert (Hlen : length (chat_history (process_response
      (with_evaluate (Failed "quota exceeded") sample_collaborators)
      "I would use VLOOKUP." started).1.2) = S (length (chat_history started)))
    by (vm_compute; reflexivity).
  split_and!.
  - reflexivity.
  - by eexists.
  - reflexivity.
  - exact Hlen.
  - intros E. rewrite E in Hlen. lia.
  - intros E. rewrite E in Hlen. lia.
Qed.

(** ** The record of an evaluated answer *)

Lemma process_response_appends_record (w : collaborators) (answer : string)
    (o : orchestrator) (q : question) (qid : string) (ev : evaluation) :
  interview_state o = in_progress →
  current_questions o !! current_question_index o = Some q →
  question_id q = Some qid →
  evaluate w = Succeeded ev →
  assessment_results (process_response w answer o).1.2 =
    assessment_results o ++ [record_of w o q answer ev].
Proof.
  intros Hs Hq Hid He.
  enter_process_response Hs Hq.
  rewrite Hid, He. simpl.
  split_all; done.
Qed.

(** ** The follow-up path *)

(** C5, as the code has it. When the evaluation succeeds and asks for a
    follow-up, [process_response] appends exactly one assessment record, for
    the answer it was given; the cursor, the batch, the skills tested, the
    trajectory decisions, the lifecycle state and the end time are
    unchanged, and the only collaborators called are the evaluator and the
    interviewer's clarification: neither the policy, nor the generation, nor
    the completion takes part.  The response is the follow-up question when
    the clarification call hands one back, and a failure (the missing key)
    when it does not.  The cursor still addresses the same question: an
    answer to the follow-up that is passed to [process_response] is
    evaluated as an answer to that question and gets a record of its own. *)
Theorem follow_up_leaves_queue :
  ∀ (w : collaborators) (answer : string) (o : orchestrator) (q : question)
    (qid : string) (ev : evaluation),
    interview_state o = in_progress →
    current_questions o !! current_question_index o = Some q →
    question_id q = Some qid →
    evaluate w = Succeeded ev →
    follow_up_needed ev = true →
    let r := (process_response w answer o).1.1 in
    let o' := (process_response w answer o).1.2 in
    let log := (process_response w answer o).2 in
    assessment_results o' = assessment_results o ++ [record_of w o q answer ev] ∧
    current_question_index o' = current_question_index o ∧
    current_questions o' = current_questions o ∧
    excel_skills_tested o' = excel_skills_tested o ∧
    trajectory_decisions o' = trajectory_decisions o ∧
    interview_state o' = in_progress ∧
    end_time o' = end_time o ∧
    log = [Call_evaluate q answer;
           Call_clarify (default "Can you elaborate?" (follow_up_suggestion ev))] ∧
    r = match clarify w with
        | Said text => Resp_follow_up (justification ev) text
        | Unavailable _ =>
            Resp_error (Err_exception (KeyError "clarification_question")) false
        end ∧
    (∀ (w2 : collaborators) (answer2 : string) (ev2 : evaluation),
       evaluate w2 = Succeeded ev2 →
       assessment_results (process_response w2 answer2 o').1.2 =
         assessment_results o ++
           [record_of w o q answer ev; record_of w2 o' q answer2 ev2]).
Proof.
  intros w answer o q qid ev Hs Hq Hid He Hf. cbv zeta.
  assert (Hframe :
    current_question_index (process_response w answer o).1.2 =
      current_question_index o ∧
    current_questions (process_response w answer o).1.2 = current_questions o ∧
    interview_state (process_response w answer o).1.2 = in_progress).
  { enter_process_response Hs Hq. rewrite Hid, He. simpl. rewrite Hf. simpl.
    destruct (clarify w); simpl; done. }
  destruct Hframe as (Hi & Hb & Hst).
  split_and!; try done.
  - by eapply process_response_appends_record.
  - enter_process_response Hs Hq. rewrite Hid, He. simpl. rewrite Hf. simpl.
    destruct (clarify w); simpl; done.
  - enter_process_response Hs Hq. rewrite Hid, He. simpl. rewrite Hf. simpl.
    destruct (clarify w); simpl; done.
  - enter_process_response Hs Hq. rewrite Hid, He. simpl. rewrite Hf. simpl.
    destruct (clarify w); simpl; done.
  - enter_process_response Hs Hq. rewrite Hid, He. simpl. rewrite Hf. simpl.
    destruct (clarify w); simpl; done.
  - enter_process_response Hs Hq. rewrite Hid, He. simpl. rewrite Hf. simpl.
    destruct (clarify w); simpl; done.
  - intros w2 answer2 ev2 He2.
    rewrite (process_response_appends_record w2 answer2 _ q qid ev2);
      [|done|by rewrite Hi, Hb|done|done].
    rewrite (process_response_appends_record w answer o q qid ev) by done.
    by rewrite <- app_assoc.
Qed.

Lemma follow_up_leaves_queue_witness :
  let w := with_evaluate (Succeeded unclear_evaluation) sample_collaborators in
  (process_response w "I would use VLOOKUP." started).1.1 =
    Resp_follow_up (Some "The approach is not clear yet.")
      "Could you say more about the ranges?" ∧
  current_question_index (process_response w "I would use VLOOKUP." started).1.2 =
    current_question_index started.
Proof.
  pose proof (follow_up_leaves_queue
    (with_evaluate (Succeeded unclear_evaluation) sample_collaborators)
    "I would use VLOOKUP." started
    (sample_question "q1" "Pivot Tables and Data Analysis") "q1"
    unclear_evaluation eq_refl eq_refl eq_refl eq_refl eq_refl) as H.
  cbv zeta in *. split; [apply H|apply H].
Defined.

(** C5 as stated fails twice.  When the clarification call hands back a
    failure, the record is appended and the method returns a failure, not a
    follow-up question.  And the answer to a follow-up, passed to
    [process_response], gets a record of its own, for the same question. *)
Lemma follow_up_not_always_returned_and_answer_recorded :
  let w := with_evaluate (Succeeded unclear_evaluation) sample_collaborators in
  let silent := with_clarify (Unavailable "quota exceeded") w in
  let o1 := (process_response w "I would use VLOOKUP." started).1.2 in
  let o2 := (process_response sample_collaborators "On the range A2:C40." o1).1.2 in
  ((process_response silent "I would use VLOOKUP." started).1.1 =
     Resp_error (Err_exception (KeyError "clarification_question")) false ∧
   length (assessment_results
     (process_response silent "I would use VLOOKUP." started).1.2) = 1) ∧
  (map candidate_answer (assessment_results o2) =
     ["I would use VLOOKUP."; "On the range A2:C40."] ∧
   map (λ r, question_id (ar_question r)) (assessment_results o2) =
     [Some "q1"; Some "q1"]).
Proof. cbv zeta. split_and!; vm_compute; reflexivity. Qed.


(** ** Completion *)

Global Instance keeps_start_data_preorder : PreOrder keeps_start_data.
Proof.
  split.
  - intros o. by split.
  - intros a b c [H1 H2] [H3 H4]. split; congruence.
Qed.

Lemma process_response_keeps_start_data (w : collaborators) (answer : string)
    (o : orchestrator) :
  keeps_start_data o (process_response w answer o).1.2.
Proof. apply preserves_process_response; try apply _; intros; by split. Qed.

Lemma process_response_lifecycle (w : collaborators) (answer : string)
    (o : orchestrator) :
  interview_state o ≠ in_progress → (process_response w answer o).1.2 = o.
Proof.
  intros Hs. unfold_monad. by rewrite bool_decide_true.
Qed.

Lemma start_interview_sets_start_data (w : collaborators) (info : candidate_info)
    (o : orchestrator) :
  start_time (start_interview w info o).1.2 = Some (now w) ∧
  candidate_data (start_interview w info o).1.2 = Some info.
Proof. unfold_monad. simpl. split_all; done. Qed.

(** Once started, an orchestrator has its start time and its candidate
    data, along every sequence of calls. *)
Lemma run_start_data (cs : list method_call) (o : orchestrator) :
  (interview_state o ≠ not_started →
   is_Some (start_time o) ∧ is_Some (candidate_data o)) →
  interview_state (run o cs) ≠ not_started →
  is_Some (start_time (run o cs)) ∧ is_Some (candidate_data (run o cs)).
Proof.
  revert o. induction cs as [|c cs IH]; intros o Ho; simpl; [done|].
  apply IH. destruct c as [w info|w answer]; simpl.
  - intros _. destruct (start_interview_sets_start_data w info o) as [-> ->].
    by split.
  - destruct (decide (interview_state o = in_progress)) as [Hs|Hs].
    + intros _. destruct (process_response_keeps_start_data w answer o) as [<- <-].
      apply Ho. by rewrite Hs.
    + by rewrite process_response_lifecycle.
Qed.

(** C9, as the code has it. Entered from a state in progress that was
    reached from a fresh orchestrator, the completion step sets the state to
    completed and the end time in every case.  When the recruiter hands back
    a decision it returns the completion with that decision; when the
    recruiter hands back a failure it returns the completion with the fixed
    fallback decision, "Requires Manual Review" with overall score 0; in both
    cases the decision is written to the metadata.  When the recruiter call
    raises, it returns a failure flagged [interview_complete], and no
    decision is written. *)
Theorem completion_outcomes :
  ∀ (cs : list method_call) (w : collaborators) (ack why : string),
    let o := run init cs in
    interview_state o = in_progress →
    let out := (_complete_adaptive_assessment w ack why o []).1.1 in
    let o' := (_complete_adaptive_assessment w ack why o []).1.2 in
    let conclusion :=
      default "Thank you for completing the adaptive Excel assessment!"
        (said (conclude w)) in
    interview_state o' = completed ∧
    end_time o' = Some (now w) ∧
    match make_final_decision w with
    | Succeeded fd =>
        out = Normal (Resp_completed ack conclusion fd) ∧
        md_final_decision <$> md_completion (interview_metadata o') = Some fd
    | Failed _ =>
        out = Normal (Resp_completed ack conclusion fallback_decision) ∧
        md_final_decision <$> md_completion (interview_metadata o') =
          Some fallback_decision
    | Crashed e =>
        out = Normal (Resp_error (Err_exception e) true) ∧
        md_completion (interview_metadata o') = md_completion (interview_metadata o)
    end ∧
    decision fallback_decision = Some "Requires Manual Review" ∧
    overall_score fallback_decision = Some 0%Z.
Proof.
  intros cs w ack why o Hs. cbv zeta.
  destruct (run_start_data cs init) as [[t Ht] _].
  { done. }
  { fold o. by rewrite Hs. }
  fold o in Ht.
  unfold_monad. simpl.
  destruct (make_final_decision w) as [fd|err|e]; simpl; rewrite ?Ht; simpl; done.
Qed.

Lemma completion_outcomes_witness :
  let w := with_make_final_decision (Failed "quota exceeded") sample_collaborators in
  interview_state
    (_complete_adaptive_assessment w "Thank you." "Reached maximum question limit"
       (run init [Start sample_collaborators sample_info]) []).1.2 = completed.
Proof.
  exact (proj1 (completion_outcomes [Start sample_collaborators sample_info]
    (with_make_final_decision (Failed "quota exceeded") sample_collaborators)
    "Thank you." "Reached maximum question limit" eq_refl)).
Defined.

(** C9 as stated fails: when the recruiter call raises, the completion step
    returns a failure, and no decision, fallback or other, is recorded. *)
Lemma completion_fails_when_recruiter_raises :
  let w := with_make_final_decision (Crashed TypeError) sample_collaborators in
  let res :=
    _complete_adaptive_assessment w "Thank you." "Reached maximum question limit"
      started [] in
  interview_state started = in_progress ∧
  res.1.1 = Normal (Resp_error (Err_exception TypeError) true) ∧
  success (Resp_error (Err_exception TypeError) true) = false ∧
  md_completion (interview_metadata res.1.2) = None ∧
  interview_state res.1.2 = completed.
Proof. cbv zeta. split_and!; vm_compute; reflexivity. Qed.

(** ** A failed start *)

(** C4, as the code has it. When the initial batch request fails or hands
    back no question, [start_interview] returns a failure (the generation
    error when the request failed) and the lifecycle state, the cursor, the
    assessment records, the chat history, the skills tested, the per-skill
    performance, the trajectory decisions and the end time are unchanged;
    the batch is unchanged when the request failed and empty when it handed
    back no question.  The candidate data, the context keys and the
    preferred difficulty of the profile, the metadata and the start time
    have been written before the request and keep the values of this
    call. *)
Theorem failed_start_keeps_lifecycle :
  ∀ (w : collaborators) (info : candidate_info) (o : orchestrator),
    (∀ qs r t, generate w = Generated qs r t → qs = []) →
    let r := (start_interview w info o).1.1 in
    let o' := (start_interview w info o).1.2 in
    success r = false ∧
    interview_state o' = interview_state o ∧
    current_question_index o' = current_question_index o ∧
    assessment_results o' = assessment_results o ∧
    chat_history o' = chat_history o ∧
    excel_skills_tested o' = excel_skills_tested o ∧
    excel_performance_by_skill o' = excel_performance_by_skill o ∧
    trajectory_decisions o' = trajectory_decisions o ∧
    end_time o' = end_time o ∧
    match generate w with
    | Not_generated err =>
        r = Resp_error (Err_generate_initial err) false ∧
        current_questions o' = current_questions o
    | Generated _ _ _ => current_questions o' = []
    end ∧
    candidate_data o' = Some info ∧
    start_time o' = Some (now w) ∧
    md_start_time <$> md_start (interview_metadata o') = Some (now w) ∧
    role_context (candidate_profile o') = Some (role_type info) ∧
    preferred_difficulty (candidate_profile o') = "Medium".
Proof.
  intros w info o Hg. cbv zeta.
  unfold_monad. simpl.
  destruct (generate w) as [qs reasoning t|err] eqn:Eg; simpl.
  - rewrite (Hg qs reasoning t eq_refl). simpl.
    destruct (welcome w); simpl; done.
  - done.
Qed.

Lemma failed_start_keeps_lifecycle_witness :
  let w := with_generate (Not_generated "quota exceeded") sample_collaborators in
  success (start_interview w sample_info init).1.1 = false ∧
  interview_state (start_interview w sample_info init).1.2 = not_started.
Proof.
  pose proof (failed_start_keeps_lifecycle
    (with_generate (Not_generated "quota exceeded") sample_collaborators)
    sample_info init ltac:(done)) as H.
  cbv zeta in H. split; apply H.
Defined.

(** C4 as stated fails: after a start whose batch request failed, the
    candidate data, the profile, the metadata and the start time are those
    of the failed call, not those of a fresh orchestrator. *)
Lemma failed_start_leaves_partial_state :
  let w := with_generate (Not_generated "quota exceeded") sample_collaborators in
  let o' := (start_interview w sample_info init).1.2 in
  success (start_interview w sample_info init).1.1 = false ∧
  interview_state o' = not_started ∧
  candidate_data o' ≠ candidate_data init ∧
  candidate_profile o' ≠ candidate_profile init ∧
  interview_metadata o' ≠ interview_metadata init ∧
  start_time o' ≠ start_time init ∧
  o' ≠ init.
Proof.
  cbv zeta. split_and!; try reflexivity; intros E; discriminate E.
Qed.

(** ** The question queue *)

Global Instance batch_extended_preorder : PreOrder batch_extended.
Proof.
  split.
  - intros o. by unfold batch_extended.
  - intros a b c H1 H2. unfold batch_extended in *. by etransitivity.
Qed.

Lemma process_response_batch_extended (w : collaborators) (answer : string)
    (o : orchestrator) :
  batch_extended o (process_response w answer o).1.2.
Proof.
  apply preserves_process_response; try apply _;
    try (intros; by unfold batch_extended).
  intros qs o'. unfold batch_extended. simpl. by apply prefix_app_r.
Qed.

Lemma process_response_queue (w : collaborators) (answer : string)
    (o : orchestrator) :
  queue_invariant o →
  queue_invariant (process_response w answer o).1.2 ∧
  (interview_state (process_response w answer o).1.2 = not_started →
   interview_state o = not_started).
Proof.
  unfold queue_invariant. intros Hq.
  unfold_monad.
  destruct (bool_decide_reflect (interview_state o ≠ in_progress)) as [Hs|Hs];
    simpl; [done|].
  destruct (Nat.leb_spec (length (current_questions o)) (current_question_index o));
    simpl; [done|].
  split_all; (split; [|done]); rewrite ?length_app; lia.
Qed.

Lemma start_interview_cursor (w : collaborators) (info : candidate_info)
    (o : orchestrator) :
  current_question_index o = 0 →
  current_question_index (start_interview w info o).1.2 = 0.
Proof. intros Hi. unfold_monad. simpl. split_all; done. Qed.

(** Along calls in which every start finds the orchestrator not started,
    the queue invariant holds, and the cursor of a not started orchestrator
    is 0. *)
Lemma run_queue_invariant (cs : list method_call) (o : orchestrator) :
  queue_invariant o →
  (interview_state o = not_started → current_question_index o = 0) →
  starts_fresh o cs →
  queue_invariant (run o cs).
Proof.
  revert o. induction cs as [|c cs IH]; intros o Hq H0 Hcs; simpl; [done|].
  destruct Hcs as [Hc Hcs]. apply IH; [| |done].
  - destruct c as [w info|w answer]; simpl.
    + unfold queue_invariant. rewrite start_interview_cursor by auto. lia.
    + by apply process_response_queue.
  - destruct c as [w info|w answer]; simpl.
    + intros _. apply start_interview_cursor. auto.
    + intros Hn.
      destruct (process_response_queue w answer o Hq) as [_ Hback].
      specialize (Hback Hn).
      rewrite process_response_lifecycle by (by rewrite Hback). auto.
Qed.

Lemma starts_fresh_take (k : nat) (cs : list method_call) (o : orchestrator) :
  starts_fresh o cs → starts_fresh o (take k cs).
Proof.
  revert o cs. induction k as [|k IH]; intros o [|c cs]; simpl; try done.
  intros [Hc Hcs]. split; [done|]. by apply IH.
Qed.

Ltac not_in_log :=
  let Hin := fresh "Hin" in
  intros ? ? Hin;
  repeat (apply elem_of_cons in Hin as [Hin|Hin]; [discriminate Hin|]);
  by apply elem_of_nil in Hin.

Lemma process_response_extension (w : collaborators) (answer : string)
    (o : orchestrator) :
  is_Some (candidate_data o) →
  current_question_index (process_response w answer o).1.2 =
    S (current_question_index o) →
  S (current_question_index o) = length (current_questions o) →
  ∃ pre post,
    (process_response w answer o).2 =
      pre ++ Call_generate "adaptive_continuation" :: post ∧
    (∀ q k, Call_present q k ∉ pre) ∧
    match generate w with
    | Generated qs _ _ =>
        current_questions (process_response w answer o).1.2 =
          current_questions o ++ qs
    | Not_generated _ =>
        interview_state (process_response w answer o).1.2 = completed ∧
        current_questions (process_response w answer o).1.2 = current_questions o ∧
        (∀ q k, Call_present q k ∉ post)
    end.
Proof.
  intros [cd Hcd].
  unfold_monad.
  destruct (bool_decide_reflect (interview_state o ≠ in_progress)) as [Hs|Hs];
    simpl; [lia|].
  destruct (Nat.leb_spec (length (current_questions o)) (current_question_index o));
    simpl; [lia|].
  destruct (current_questions o !! current_question_index o) as [q|]; simpl; [|lia].
  destruct (question_id q) as [qid|]; simpl; [|lia].
  destruct (evaluate w) as [ev|err|e]; simpl; [|lia|lia].
  destruct (follow_up_needed ev); simpl.
  { destruct (said (clarify w)); simpl; lia. }
  match goal with
  | |- context [_should_continue_adaptive_assessment ?x] =>
      destruct (_should_continue_adaptive_assessment x) as [d|e]; simpl; [|lia]
  end.
  destruct (continue d); simpl.
  2:{ destruct (make_final_decision w); simpl;
        try destruct (start_time o); simpl; lia. }
  intros _ Hlen.
  destruct (Nat.leb_spec (length (current_questions o))
              (S (current_question_index o))); [|lia].
  simpl. rewrite Hcd. simpl.
  destruct (generate w) as [qs reasoning t|err]; simpl.
  - split_all;
      (eexists [_; _], _;
       split_and!; [reflexivity|not_in_log|done]).
  - split_all;
      (eexists [_; _], _;
       split_and!;
         [reflexivity|not_in_log|done|done|not_in_log]).
Qed.




(** ** The response parser *)

Lemma take_length_app {A : Type} (m rest : list A) :
  take (length (m ++ rest) - length rest) (m ++ rest) = m.
Proof.
  rewrite length_app. replace (length m + length rest - length rest) with (length m) by lia.
  by rewrite take_app_length.
Qed.

(** The matcher only succeeds on a text that starts with a text matched by
    the expression, and then with the continuation on the rest. *)
Lemma matches_sound {T : Type} (r : regex) :
  ∀ (k : option (list ascii) → list ascii → option T) g s x,
    matches r k g s = Some x →
    ∃ s1 s2 g', s = s1 ++ s2 ∧ derives r s1 g g' ∧ k g' s2 = Some x.
Proof.
  induction r as [|c|p|r1 IH1 r2 IH2|r1 IH1 r2 IH2|r1 IH1|r1 IH1|r1 IH1|r1 IH1];
    intros k g s x H; simpl in H.
  - destruct s as [|c s']; [done|].
    exists [c], s', g. split_and!; [done|constructor|done].
  - destruct s as [|c' s']; [done|].
    destruct (Ascii.eqb_spec c c') as [->|]; [|done].
    exists [c'], s', g. split_and!; [done|constructor|done].
  - destruct s as [|c' s']; [done|].
    destruct (p c') eqn:Hp; [|done].
    exists [c'], s', g. split_and!; [done|by constructor|done].
  - apply IH1 in H as (s1 & s2 & g1 & -> & H1 & H).
    apply IH2 in H as (s3 & s4 & g2 & -> & H2 & H).
    exists (s1 ++ s3), s4, g2. split_and!; [by rewrite app_assoc| |done].
    by econstructor.
  - destruct (matches r1 k g s) as [y|] eqn:E.
    + injection H as ->. apply IH1 in E as (s1 & s2 & g' & -> & H1 & H).
      exists s1, s2, g'. split_and!; [done|by apply derives_alt_l|done].
    + apply IH2 in H as (s1 & s2 & g' & -> & H1 & H).
      exists s1, s2, g'. split_and!; [done|by apply derives_alt_r|done].
  - destruct (matches r1 k g s) as [y|] eqn:E.
    + injection H as ->. apply IH1 in E as (s1 & s2 & g' & -> & H1 & H).
      exists s1, s2, g'. split_and!; [done|by apply derives_opt_take|done].
    + exists [], s, g. split_and!; [done|constructor|done].
  - revert H. generalize (length s) at 1. intros fuel. revert g s.
    induction fuel as [|fuel IHf]; intros g s H.
    + exists [], s, g. split_and!; [done|constructor|done].
    + match type of H with
      | match ?m with _ => _ end = _ => destruct m as [y|] eqn:E
      end.
      * injection H as ->. apply IH1 in E as (s1 & s2 & g1 & -> & H1 & H).
        destruct (length s2 <? length (s1 ++ s2)); [|done].
        apply IHf in H as (s3 & s4 & g2 & -> & H2 & H).
        exists (s1 ++ s3), s4, g2. split_and!; [by rewrite app_assoc| |done].
        by econstructor.
      * exists [], s, g. split_and!; [done|constructor|done].
  - revert H. generalize (length s) at 1. intros fuel. revert g s.
    induction fuel as [|fuel IHf]; intros g s H.
    + destruct (k g s) as [y|] eqn:E; [|done].
      exists [], s, g. split_and!; [done|constructor|congruence].
    + destruct (k g s) as [y|] eqn:E.
      * exists [], s, g. split_and!; [done|constructor|congruence].
      * apply IH1 in H as (s1 & s2 & g1 & -> & H1 & H).
        destruct (length s2 <? length (s1 ++ s2)); [|done].
        apply IHf in H as (s3 & s4 & g2 & -> & H2 & H).
        exists (s1 ++ s3), s4, g2. split_and!; [by rewrite app_assoc| |done].
        by econstructor.
  - apply IH1 in H as (s1 & s2 & g' & -> & H1 & H).
    rewrite take_length_app in H.
    exists s1, s2, (Some s1). split_and!; [done|by econstructor|done].
Qed.

Lemma match_here_sound (r : regex) (s rest : list ascii) g :
  match_here r s = Some (g, rest) →
  ∃ m, s = m ++ rest ∧ derives r m None g.
Proof.
  intros H. apply matches_sound in H as (s1 & s2 & g' & -> & H1 & [= <- <-]).
  by exists s1.
Qed.

Lemma search_sound (r : regex) (s rest : list ascii) g :
  search r s = Some (g, rest) →
  ∃ pre m, s = pre ++ m ++ rest ∧ derives r m None g.
Proof.
  induction s as [|c s IH]; simpl.
  - destruct (match_here r []) as [[g0 rest0]|] eqn:E; [|done].
    intros [= -> ->]. apply match_here_sound in E as (m & -> & Hm).
    by exists [], m.
  - destruct (match_here r (c :: s)) as [[g0 rest0]|] eqn:E.
    + intros [= -> ->]. apply match_here_sound in E as (m & -> & Hm).
      by exists [], m.
    + intros H. apply IH in H as (pre & m & -> & Hm).
      by exists (c :: pre), m.
Qed.

Lemma in_order_skip (c : ascii) (s : list ascii) (ms : list (list ascii)) :
  in_order s ms → in_order (c :: s) ms.
Proof.
  intros H. destruct H as [s|pre m rest ms H]; [constructor|].
  by apply (in_order_cons (c :: pre)).
Qed.

Lemma findall_from_sound (r : regex) (fuel : nat) (s : list ascii) :
  Forall (λ m, ∃ g, derives r m None g) (findall_from fuel r s) ∧
  in_order s (findall_from fuel r s).
Proof.
  revert s. induction fuel as [|fuel IH]; intros s; simpl.
  { split; constructor. }
  destruct (match_here r s) as [[g rest]|] eqn:E.
  - apply match_here_sound in E as (m & -> & Hm).
    rewrite take_length_app.
    destruct (Nat.ltb_spec (length rest) (length (m ++ rest))) as [Hl|Hl].
    + destruct (IH rest) as [HF HO]. split.
      * constructor; [by exists g|done].
      * by apply (in_order_cons []).
    + assert (m = []) as ->.
      { destruct m; [done|]. rewrite length_app in Hl. simpl in Hl. lia. }
      simpl. destruct rest as [|c s'].
      * split; [constructor; [by exists g|constructor]|].
        apply (in_order_cons [] [] []). constructor.
      * destruct (IH s') as [HF HO]. split.
        { constructor; [by exists g|done]. }
        by apply (in_order_cons [c] [] s').
  - destruct s as [|c s']; [split; constructor|].
    destruct (IH s') as [HF HO]. split; [done|by apply in_order_skip].
Qed.

Lemma findall_sound (r : regex) (s : list ascii) :
  Forall (λ m, ∃ g, derives r m None g) (findall r s) ∧ in_order s (findall r s).
Proof. apply findall_from_sound. Qed.

(** *** Counting the braces of a matched span *)

Lemma walk_app (lo hi d : nat) (s1 s2 : list ascii) :
  walk lo hi d (s1 ++ s2) = walk lo hi d s1 ≫= λ d', walk lo hi d' s2.
Proof.
  revert d. induction s1 as [|c s1 IH]; intros d; simpl; [done|].
  repeat case_match; try done; apply IH.
Qed.

Lemma walk_not_brace (lo hi d : nat) (s : list ascii) g g' :
  derives (Class not_brace) s g g' → walk lo hi d s = Some d.
Proof.
  inversion 1 as [| |p c g0 Hc| | | | | | | | | |]; subst. simpl.
  unfold not_brace in Hc. apply negb_true_iff, orb_false_iff in Hc as [-> ->].
  done.
Qed.

Lemma walk_star (lo hi d : nat) (r : regex) (s : list ascii) g g' :
  (∀ s g g', derives r s g g' → walk lo hi d s = Some d) →
  derives (Star r) s g g' → walk lo hi d s = Some d.
Proof.
  intros Hr H. remember (Star r) as sr eqn:E.
  induction H; try discriminate E; injection E as ->; [done|].
  rewrite walk_app, (Hr _ _ _ H). simpl. by apply IHderives2.
Qed.

Lemma walk_alt (lo hi d : nat) (r1 r2 : regex) (s : list ascii) g g' :
  (∀ s g g', derives r1 s g g' → walk lo hi d s = Some d) →
  (∀ s g g', derives r2 s g g' → walk lo hi d s = Some d) →
  derives (Alt r1 r2) s g g' → walk lo hi d s = Some d.
Proof. intros H1 H2 H. inversion H; subst; eauto. Qed.

Lemma derives_seq_inv (r1 r2 : regex) (s : list ascii) g g' :
  derives (Seq r1 r2) s g g' →
  ∃ s1 s2 g1, s = s1 ++ s2 ∧ derives r1 s1 g g1 ∧ derives r2 s2 g1 g'.
Proof. inversion 1; subst. eauto 10. Qed.

Lemma derives_lit_inv (c : ascii) (s : list ascii) g g' :
  derives (Lit c) s g g' → s = [c] ∧ g' = g.
Proof. by inversion 1; subst. Qed.

Lemma derives_braces (inside : regex) (s : list ascii) g g' :
  derives (braces inside) s g g' →
  ∃ body g1 g2, s = "{"%char :: body ++ ["}"%char] ∧ derives (Star inside) body g1 g2.
Proof.
  unfold braces. intros H.
  apply derives_seq_inv in H as (s1 & s2 & g1 & -> & Ho & H).
  apply derives_lit_inv in Ho as [-> ->].
  apply derives_seq_inv in H as (s3 & s4 & g3 & -> & Hb & Hc).
  apply derives_lit_inv in Hc as [-> ->].
  eexists _, _, _. split; [done|exact Hb].
Qed.

Lemma walk_braces (lo hi d : nat) (inside : regex) (s : list ascii) g g' :
  lo ≤ d → S d ≤ hi →
  (∀ s g g', derives inside s g g' → walk lo hi (S d) s = Some (S d)) →
  derives (braces inside) s g g' → walk lo hi d s = Some d.
Proof.
  intros Hlo Hhi Hin H.
  apply derives_braces in H as (body & g1 & g2 & -> & Hb).
  change (walk lo hi d ("{"%char :: body ++ ["}"%char])) with
    (if S d <=? hi then walk lo hi (S d) (body ++ ["}"%char]) else None).
  rewrite (proj2 (Nat.leb_le _ _)) by lia.
  rewrite walk_app, (walk_star _ _ _ _ _ _ _ Hin Hb).
  change (Some (S d) ≫= λ d', walk lo hi d' ["}"%char]) with
    (if S lo <=? S d then Some (S d - 1) else None).
  rewrite (proj2 (Nat.leb_le _ _)) by lia.
  f_equal. lia.
Qed.

(** A text matched by [json_pattern] is a span balanced to depth three. *)
Lemma json_pattern_balanced (m : list ascii) g g' :
  derives json_pattern m g g' → balanced_span 3 m.
Proof.
  unfold json_pattern. intros H.
  apply derives_braces in H as (body & g1 & g2 & -> & Hb).
  exists body. split; [done|].
  eapply walk_star; [|exact Hb]. clear.
  intros s g g' H. eapply walk_alt; [| |exact H]; clear.
  { intros s g g'. apply walk_not_brace. }
  intros s g g' H. eapply (walk_braces 1 3 1); [lia|lia| |exact H]. clear.
  intros s g g' H. eapply walk_alt; [| |exact H]; clear.
  { intros s g g'. apply walk_not_brace. }
  intros s g g' H. eapply (walk_braces 1 3 2); [lia|lia| |exact H]. clear.
  intros s g g'. apply walk_not_brace.
Qed.

(** *** The fenced block *)

Lemma derives_class_star_inv (p : ascii → bool) (s : list ascii) g g' :
  derives (Star (Class p)) s g g' → Forall (λ c, p c = true) s ∧ g' = g.
Proof.
  intros H. remember (Star (Class p)) as sr eqn:E.
  induction H; try discriminate E; injection E as ->; [by split|].
  inversion H; subst. destruct (IHderives2 eq_refl) as [HF ->].
  split; [|done]. by constructor.
Qed.

Lemma derives_opt_json_inv (s : list ascii) g g' :
  derives (Opt (Seq (Lit "j") (Seq (Lit "s") (Seq (Lit "o") (Lit "n"))))) s g g' →
  (s = [] ∨ s = list_ascii_of_string "json") ∧ g' = g.
Proof.
  inversion 1 as [| | | | | |r g0|r s0 g0 g1 Hj| | | | |]; subst; [by split; [left|]|].
  apply derives_seq_inv in Hj as (s1 & s2 & g1' & -> & H1 & Hj).
  apply derives_lit_inv in H1 as [-> ->].
  apply derives_seq_inv in Hj as (s3 & s4 & g2 & -> & H2 & Hj).
  apply derives_lit_inv in H2 as [-> ->].
  apply derives_seq_inv in Hj as (s5 & s6 & g3 & -> & H3 & H4).
  apply derives_lit_inv in H3 as [-> ->].
  apply derives_lit_inv in H4 as [-> ->].
  split; [by right|done].
Qed.

Lemma derives_group_inv (r : regex) (s : list ascii) g g' :
  derives (Group r) s g g' → g' = Some s ∧ ∃ g0, derives r s g g0.
Proof. inversion 1; subst. eauto. Qed.

(** A text matched by [fence_pattern] is a fenced block around the captured
    group. *)
Lemma fence_pattern_block (m : list ascii) g g' :
  derives fence_pattern m g g' → ∃ span, g' = Some span ∧ fenced_block m span.
Proof.
  unfold fence_pattern. simpl. intros H.
  apply derives_seq_inv in H as (b1 & s & g1 & -> & Hb1 & H).
  apply derives_lit_inv in Hb1 as [-> ->].
  apply derives_seq_inv in H as (b2 & s' & g2 & -> & Hb2 & H).
  apply derives_lit_inv in Hb2 as [-> ->].
  apply derives_seq_inv in H as (b3 & s'' & g3 & -> & Hb3 & H).
  apply derives_lit_inv in Hb3 as [-> ->].
  apply derives_seq_inv in H as (tag & s3 & g4 & -> & Htag & H).
  apply derives_opt_json_inv in Htag as [Htag ->].
  apply derives_seq_inv in H as (ws1 & s4 & g5 & -> & Hws1 & H).
  apply derives_class_star_inv in Hws1 as [Hws1 ->].
  apply derives_seq_inv in H as (span & s5 & g6 & -> & Hspan & H).
  apply derives_group_inv in Hspan as [-> [g0 Hspan]].
  apply derives_seq_inv in Hspan as (o1 & s6 & g7 & -> & Ho & Hspan).
  apply derives_lit_inv in Ho as [-> ->].
  apply derives_seq_inv in Hspan as (body & c1 & g8 & -> & _ & Hc).
  apply derives_lit_inv in Hc as [-> _].
  apply derives_seq_inv in H as (ws2 & s7 & g9 & -> & Hws2 & H).
  apply derives_class_star_inv in Hws2 as [Hws2 ->].
  apply derives_seq_inv in H as (e1 & s8 & g10 & -> & He1 & H).
  apply derives_lit_inv in He1 as [-> ->].
  apply derives_seq_inv in H as (e2 & e3 & g11 & -> & He2 & He3).
  apply derives_lit_inv in He2 as [-> ->].
  apply derives_lit_inv in He3 as [-> ->].
  eexists. split; [done|].
  exists tag, ws1, body, ws2. split_and!; try done.
Qed.

Lemma first_parsed_first_success {document : Type}
    (json_loads : string → option document) (raw : string)
    (ms : list (list ascii)) :
  first_parsed json_loads raw ms =
    match first_success json_loads (map string_of_list_ascii ms) with
    | Some data => Parsed data
    | None => Unparseable raw
    end.
Proof.
  induction ms as [|m ms IH]; simpl; [done|].
  by destruct (json_loads (string_of_list_ascii m)).
Qed.



(** The patterns on sample texts: a span nested deeper than three levels is
    not matched from its first brace, and the lazy star of the fenced block
    runs to the first closing brace that is followed by a fence. *)
Example brace_spans_nested :
  brace_spans "x {a: {b: {c: {d}}}} y {e}" = ["{b: {c: {d}}}"; "{e}"].
Proof. vm_compute. reflexivity. Qed.

Example fenced_span_first_block :
  fenced_span ("Here: " +:+ "```" +:+ "json {a: {b}} " +:+ "```" +:+ " and "
               +:+ "```" +:+ "{c}" +:+ "```")
  = ["{a: {b}}"].
Proof. vm_compute. reflexivity. Qed.
